(** * mesona/proxy.py: a TLS relay with length hiding

    A shallow embedding of [mesona/proxy.py].  The TLS sessions, sockets,
    threads and the console are collaborators of the module: every call the
    module makes on one of them is recorded in a log, and the answer to the
    call (a value, or an exception raised by the library) is given by an
    environment that sees the whole history of calls made so far.  The code of
    the module itself is written in a small state-and-exception monad over
    that log. *)

From Stdlib Require Import ZArith List String Ascii DecimalString Bool Lia Permutation.
Import ListNotations.

Local Open Scope string_scope.
Local Open Scope Z_scope.
Local Open Scope list_scope.

(** ** Exceptions *)

(** What a collaborator can raise: [GNUTLSError] (the class imported from
    [gnutls.errors], with its subclasses) or an exception of some other class
    ([socket.error], [RuntimeError], ...).  [ReaderError] and [WriterError] are
    classes of this module, so no collaborator raises them. *)
Inductive lib_exn : Type :=
| GNUTLSError (message : string)
| PyException (cls message : string).

Inductive exn : Type :=
| Lib (e : lib_exn)
| ReaderError (message : string)
| WriterError (message : string).

Definition RuntimeError (message : string) : exn :=
  Lib (PyException "RuntimeError" message).

Definition is_ReaderError (e : exn) : bool :=
  match e with ReaderError _ => true | _ => false end.

Definition is_WriterError (e : exn) : bool :=
  match e with WriterError _ => true | _ => false end.

(** ** Collaborators *)

(** The two TLS sessions of a connection: [self.session] faces the client
    (the near endpoint), [self.remote] faces the destination (the far one). *)
Inductive endpoint : Type := session | remote.

Definition endpoint_eqb (a b : endpoint) : bool :=
  match a, b with
  | session, session | remote, remote => true
  | _, _ => false
  end.

Inductive address_family : Type := AF_INET | AF_INET6.

(** An address is a tuple whose first component is the host string:
    [(host, port)] or [(host, port, flowinfo, scopeid)]. *)
Definition address : Type := (string * list Z)%type.

Inductive tls_role : Type := as_server | as_client.

(** The calls of the module on its collaborators. *)
Inductive call : Type :=
| LengthHidingServerSession
| LengthHidingClientSession (server_name_indicator : string)
| socket_builder (use_proxy : bool) (family : address_family)
| set_proxy (descriptor : list string)
| connect (ep : endpoint) (a : address)
| handshake (ep : endpoint)
| verify_peer (ep : endpoint)
| check_certificate (ep : endpoint)
| can_use_length_hiding (ep : endpoint)
| recv (ep : endpoint) (buffer_size : Z)
| send (ep : endpoint) (data : string)
| send_range (ep : endpoint) (data : string) (range_low range_high : Z)
| bye (ep : endpoint)
| shutdown (ep : endpoint)
| close (ep : endpoint)
| forwarding_thread_start
| traceback_print_exc
| TLSContext (role : tls_role)
| ThreadingTCPServer_init (listen : address) (family : address_family)
| serve_forever_thread_start (key : string)
| print (line : string).

Inductive value : Type :=
| VNone
| VBool (b : bool)
| VStr (s : string).

Inductive outcome : Type :=
| Returns (v : value)
| Raises (e : lib_exn).

Inductive event : Type := Ev (c : call) (o : outcome).

Definition ev_call (ev : event) : call := let (c, _) := ev in c.

Definition calls (log : list event) : list call := map ev_call log.

Inductive lib_result (A : Type) : Type :=
| Return (a : A)
| Throw (e : lib_exn).
Arguments Return {A} a.
Arguments Throw {A} e.

(** The environment answers a call from the history of the calls before it. *)
Record Env : Type := {
  env_unit : list event -> call -> lib_result unit;
  env_bool : list event -> call -> lib_result bool;
  env_data : list event -> call -> lib_result string
}.

(** ** The monad of the module's code *)

Inductive result (A : Type) : Type :=
| Ok (a : A)
| Raise (e : exn)
| OutOfFuel.
Arguments Ok {A} a.
Arguments Raise {A} e.
Arguments OutOfFuel {A}.

Definition M (A : Type) : Type := list event -> result A * list event.

Definition ret {A} (a : A) : M A := fun log => (Ok a, log).

Definition raise {A} (e : exn) : M A := fun log => (Raise e, log).

Definition bind {A B} (m : M A) (k : A -> M B) : M B :=
  fun log =>
    match m log with
    | (Ok a, log') => k a log'
    | (Raise e, log') => (Raise e, log')
    | (OutOfFuel, log') => (OutOfFuel, log')
    end.

Notation "x <- m ;; k" := (bind m (fun x => k))
  (at level 61, m at next level, right associativity).
Notation "m ;; k" := (bind m (fun _ => k))
  (at level 61, right associativity).

(** Sequencing of pure computations that may raise. *)
Definition and_then {A B} (r : result A) (k : A -> result B) : result B :=
  match r with
  | Ok a => k a
  | Raise e => Raise e
  | OutOfFuel => OutOfFuel
  end.

Notation "x <- r ;;; k" := (and_then r (fun x => k))
  (at level 61, r at next level, right associativity).

(** [try: body except GNUTLSError as e: handler(e.message)] *)
Definition try_except_GNUTLSError {A} (body : M A) (handler : string -> M A) : M A :=
  fun log =>
    match body log with
    | (Raise (Lib (GNUTLSError message)), log') => handler message log'
    | r => r
    end.

(** [try: body except: pass] *)
Definition try_except_pass (body : M unit) : M unit :=
  fun log =>
    match body log with
    | (Raise _, log') => (Ok tt, log')
    | r => r
    end.

(** A call that cannot fail in the model (console output, thread start). *)
Definition emit (c : call) : M unit :=
  fun log => (Ok tt, log ++ [Ev c (Returns VNone)]).

Section Calls.
Variable env : Env.

Definition call_unit (c : call) : M unit :=
  fun log =>
    match env_unit env log c with
    | Return _ => (Ok tt, log ++ [Ev c (Returns VNone)])
    | Throw e => (Raise (Lib e), log ++ [Ev c (Raises e)])
    end.

Definition call_bool (c : call) : M bool :=
  fun log =>
    match env_bool env log c with
    | Return b => (Ok b, log ++ [Ev c (Returns (VBool b))])
    | Throw e => (Raise (Lib e), log ++ [Ev c (Raises e)])
    end.

Definition call_data (c : call) : M string :=
  fun log =>
    match env_data env log c with
    | Return s => (Ok s, log ++ [Ev c (Returns (VStr s))])
    | Throw e => (Raise (Lib e), log ++ [Ev c (Raises e)])
    end.
End Calls.

(** ** Module-level functions *)

Definition len (data : string) : Z := Z.of_nat (String.length data).

Section Forwarding.
Variable env : Env.

(** One step of the generator [connection_reader(src, buffer_size)]:
    [None] is the generator's [return] (the [for] loop over it ends),
    [Some data] is a [yield]. *)
Definition connection_reader (src : endpoint) (buffer_size : Z) : M (option string) :=
  data <- try_except_GNUTLSError
            (call_data env (recv src buffer_size))
            (fun message => raise (ReaderError message)) ;;
  if len data =? 0 then ret None else ret (Some data).

Definition send_range_safe (dst : endpoint) (data : string)
           (range_low range_high : Z) : M unit :=
  let range_low := Z.max range_low (1 - len data) in
  let range_high := range_high in
  call_unit env (send_range dst data range_low range_high).

(** The [for data in reader] loops; [fuel] bounds the number of chunks. *)
Fixpoint forward_connection_with_padding (fuel : nat) (reader : M (option string))
         (dst : endpoint) (range_low range_high : Z) : M unit :=
  match fuel with
  | O => fun log => (OutOfFuel, log)
  | S fuel' =>
      next <- reader ;;
      match next with
      | None => ret tt
      | Some data =>
          try_except_GNUTLSError
            (send_range_safe dst data range_low range_high)
            (fun message => raise (WriterError message)) ;;
          forward_connection_with_padding fuel' reader dst range_low range_high
      end
  end.

Fixpoint forward_connection (fuel : nat) (reader : M (option string))
         (dst : endpoint) : M unit :=
  match fuel with
  | O => fun log => (OutOfFuel, log)
  | S fuel' =>
      next <- reader ;;
      match next with
      | None => ret tt
      | Some data =>
          try_except_GNUTLSError
            (call_unit env (send dst data))
            (fun message => raise (WriterError message)) ;;
          forward_connection fuel' reader dst
      end
  end.
End Forwarding.

(** [s.startswith(prefix)], [s.endswith(suffix)] and the slice [s[1:-1]]. *)
Definition startswith (s prefix : string) : bool := String.prefix prefix s.

Definition endswith (s suffix : string) : bool :=
  (String.length suffix <=? String.length s)%nat &&
  String.eqb (substring (String.length s - String.length suffix)
                        (String.length suffix) s) suffix.

Definition slice_1_m1 (s : string) : string :=
  substring 1 (String.length s - 2) s.

Definition is_ipv6_address (a : address) : bool :=
  let ip_address := fst a in
  startswith ip_address "[" && endswith ip_address "]".

(** ** The relay configuration

    [config] is an [MITMSettings] object whose attributes are those of the
    configuration entry.  Credentials and priority strings are opaque values
    handed to [TLSContext]; they are left out. *)
Module MITMSettings.
Record t : Type := mk {
  server_address : address;
  listen_address : address;
  verify_client_identity : bool;
  verify_server_identity : bool;
  use_length_hiding_with_client : bool;
  use_length_hiding_with_server : bool;
  padding_range_with_client : Z * Z;
  padding_range_with_server : Z * Z;
  buffer_size : Z;
  proxy : option (list string);
  suppress_exceptions : bool;
  server_name_indicator : string
}.
End MITMSettings.

(** The lines written to the console. *)
Definition dashes : string := "----------------------------------------".

Definition quoted (s : string) : string :=
  String (ascii_of_nat 34) (append s (String (ascii_of_nat 34) EmptyString)).

Definition could_not_create (key : string) : string :=
  append "Could not create proxy instance " (append (quoted key) ":").

(** [repr] of an address tuple, for host strings that need no escaping. *)
Definition repr_int (z : Z) : string := NilZero.string_of_int (Z.to_int z).

Definition repr_address (a : address) : string :=
  append "('" (append (fst a)
    (append "'" (append
      match snd a with
      | [] => ","
      | rest => String.concat "" (map (fun z => append ", " (repr_int z)) rest)
      end ")"))).

Definition starting_listener (key : string) (listen server : address) : string :=
  append "Starting listener " (append (quoted key)
    (append " on " (append (repr_address listen)
      (append " which forwards to " (repr_address server))))).

Definition newline : string := String (ascii_of_nat 10) EmptyString.

(** ** class MITMServer *)
Module MITMServer.
Record t : Type := mk {
  config : MITMSettings.t;
  address_family : address_family
}.

Section Methods.
Variable env : Env.

(** [address_family] is the class attribute [AF_INET] of [TCPServer]
    unless [__init__] overrides it. *)
Definition init (config : MITMSettings.t) : M t :=
  let family :=
    if is_ipv6_address (MITMSettings.listen_address config)
    then AF_INET6 else AF_INET in
  call_unit env (TLSContext as_server) ;;
  call_unit env (TLSContext as_client) ;;
  call_unit env (ThreadingTCPServer_init (MITMSettings.listen_address config) family) ;;
  ret (mk config family).

Definition print_exc (config : MITMSettings.t) : M unit :=
  if MITMSettings.suppress_exceptions config then ret tt
  else
    emit (print dashes) ;;
    emit (print "Exception happened during processing of request") ;;
    emit traceback_print_exc ;;
    emit (print dashes).
End Methods.
End MITMServer.

(** ** class ForwardingThread *)
Module ForwardingThread.
Section Methods.
Variable env : Env.
Variables src dst : endpoint.
Variable config : MITMSettings.t.

Definition say_bye_to_dst : M unit :=
  try_except_pass (call_unit env (bye dst)).

Definition close_dst : M unit :=
  try_except_pass (call_unit env (shutdown dst)) ;;
  call_unit env (close dst).

(** The [try] body of [run]: the forwarding loop of this flow. *)
Definition forwarding (fuel : nat) : M unit :=
  let reader := connection_reader env src (MITMSettings.buffer_size config) in
  if MITMSettings.use_length_hiding_with_client config
  then forward_connection_with_padding env fuel reader dst
         (fst (MITMSettings.padding_range_with_client config))
         (snd (MITMSettings.padding_range_with_client config))
  else forward_connection env fuel reader dst.

Definition run (fuel : nat) : M unit :=
  (fun log =>
     match forwarding fuel log with
     | (Raise _, log') => MITMServer.print_exc config log'
     | (Ok _, log') => say_bye_to_dst log'
     | (OutOfFuel, log') => (OutOfFuel, log')
     end) ;;
  close_dst.
End Methods.
End ForwardingThread.

(** ** class MITMHandler *)
Module MITMHandler.
Section Methods.
Variable env : Env.
Variable config : MITMSettings.t.

Definition handshake_with_client : M unit :=
  call_unit env LengthHidingServerSession ;;
  call_unit env (handshake session).

Definition build_server_connection : M unit :=
  let server_address := MITMSettings.server_address config in
  let use_proxy :=
    match MITMSettings.proxy config with Some _ => true | None => false end in
  let is_ipv6 := is_ipv6_address server_address in
  (if is_ipv6
   then call_unit env (socket_builder use_proxy AF_INET6)
   else call_unit env (socket_builder use_proxy AF_INET)) ;;
  match MITMSettings.proxy config with
  | Some descriptor => call_unit env (set_proxy descriptor)
  | None => ret tt
  end ;;
  call_unit env (LengthHidingClientSession (MITMSettings.server_name_indicator config)) ;;
  (if is_ipv6
   then call_unit env (connect remote (slice_1_m1 (fst server_address), snd server_address))
   else call_unit env (connect remote server_address)) ;;
  call_unit env (handshake remote).

Definition verify_client_identity : M unit :=
  call_unit env (verify_peer session) ;;
  call_unit env (check_certificate session).

Definition verify_server_identity : M unit :=
  call_unit env (verify_peer remote) ;;
  call_unit env (check_certificate remote).

(** [ForwardingThread(self.remote, self.session, self.server).start()];
    the thread's flow is [forwarding_thread_run] below. *)
Definition start_forwarding_thread : M unit :=
  emit forwarding_thread_start.

Definition forwarding_thread_run (fuel : nat) : M unit :=
  ForwardingThread.run env remote session config fuel.

Definition setup : M unit :=
  handshake_with_client ;;
  (if MITMSettings.verify_client_identity config
   then verify_client_identity else ret tt) ;;
  (if MITMSettings.use_length_hiding_with_client config
   then
     can <- call_bool env (can_use_length_hiding session) ;;
     if negb can then raise (RuntimeError "Can't use length hiding with client")
     else ret tt
   else ret tt) ;;
  build_server_connection ;;
  (if MITMSettings.verify_server_identity config
   then verify_server_identity else ret tt) ;;
  (if MITMSettings.use_length_hiding_with_server config
   then
     can <- call_bool env (can_use_length_hiding remote) ;;
     if negb can then raise (RuntimeError "Can't use length hiding with server")
     else ret tt
   else ret tt) ;;
  start_forwarding_thread.

Definition say_bye_to_remote : M unit :=
  try_except_pass (call_unit env (bye remote)).

Definition close_remote : M unit :=
  try_except_pass (call_unit env (shutdown remote)) ;;
  call_unit env (close remote).

Definition say_bye_to_origin : M unit :=
  try_except_pass (call_unit env (bye session)).

(** The [try] body of [handle]: the forwarding loop of the inline flow. *)
Definition forwarding (fuel : nat) : M unit :=
  let reader := connection_reader env session (MITMSettings.buffer_size config) in
  if MITMSettings.use_length_hiding_with_server config
  then forward_connection_with_padding env fuel reader remote
         (fst (MITMSettings.padding_range_with_server config))
         (snd (MITMSettings.padding_range_with_server config))
  else forward_connection env fuel reader remote.

Definition handle (fuel : nat) : M unit :=
  fun log =>
    match forwarding fuel log with
    | (Raise (ReaderError message), log') =>
        (say_bye_to_remote ;;
         close_remote ;;
         raise (ReaderError message)) log'
    | (Raise (WriterError message), log') =>
        (close_remote ;;
         say_bye_to_origin ;;
         raise (WriterError message)) log'
    | (Ok _, log') =>
        (say_bye_to_remote ;;
         close_remote ;;
         say_bye_to_origin) log'
    | (Raise (Lib e), log') => (Raise (Lib e), log')
    | (OutOfFuel, log') => (OutOfFuel, log')
    end.
End Methods.
End MITMHandler.

(** ** Building the configuration of a relay

    [setting] and [default_settings] are dictionaries; the attributes of a
    [config] object are the dictionary [config.__dict__]. *)
Section Dictionaries.
Context {V : Type}.

Definition dict : Type := list (string * V).

Fixpoint lookup (d : dict) (k : string) : option V :=
  match d with
  | [] => None
  | (k', v) :: d' => if String.eqb k' k then Some v else lookup d' k
  end.

(** [d[k] = v] *)
Fixpoint setitem (d : dict) (k : string) (v : V) : dict :=
  match d with
  | [] => [(k, v)]
  | (k', v') :: d' =>
      if String.eqb k' k then (k, v) :: d' else (k', v') :: setitem d' k v
  end.

(** [d.update(new)] *)
Definition update (d new : dict) : dict :=
  fold_left (fun acc item => setitem acc (fst item) (snd item)) new d.

(** [d[k]] *)
Definition getitem (d : dict) (k : string) : result V :=
  match lookup d k with
  | Some v => Ok v
  | None => Raise (Lib (PyException "KeyError" k))
  end.

(** [MITMSettings.__init__] *)
Definition MITMSettings_init (server_addr listen_addr : V) : dict :=
  [("server_address", server_addr); ("listen_address", listen_addr)].

(** The first three statements of the body of the startup loop. *)
Definition make_config (default_settings setting : dict) : result dict :=
  server_addr <- getitem setting "server_address" ;;;
  listen_addr <- getitem setting "listen_address" ;;;
  let config := MITMSettings_init server_addr listen_addr in
  let config := update config default_settings in
  let config := update config setting in
  Ok config.
End Dictionaries.

(** ** The [__main__] block *)

(** How the process ends: [sys.exit(status)] at startup, or the listeners
    serve until the interrupt signal. *)
Inductive process_end : Type :=
| sys_exit (status : Z)
| serving (servers : list (string * MITMServer.t)).

(** [except Exception] lets through the exceptions whose class derives from
    [BaseException] only. *)
Definition base_only (cls : string) : bool :=
  existsb (String.eqb cls)
          ["BaseException"; "KeyboardInterrupt"; "SystemExit"; "GeneratorExit"].

Definition is_Exception (e : exn) : bool :=
  match e with
  | Lib (PyException cls _) => negb (base_only cls)
  | _ => true
  end.

Section Main.
Context {V : Type}.
Variable env : Env.

(** How the values of the configuration module are encoded is not in the
    source: [attributes_of] reads the attributes of a configuration object,
    its [__dict__], as the typed record the rest of the module works with.
    An attribute that [MITMServer.__init__] reads and the configuration lacks
    raises inside the [try], where the construction call that takes it would
    have been made: the environment's answer to that call stands for it. *)
Variable attributes_of : @dict V -> MITMSettings.t.
Variable default_settings : @dict V.

(** The [for key, setting in settings.items()] loop; [servers] is the list
    appended to ([threads] grows with it, one thread per server).  The
    configuration is built before the [try]: a [KeyError] there leaves the
    loop, as does what [except Exception] does not catch. *)
Fixpoint start_servers (settings : list (string * @dict V))
         (servers : list (string * MITMServer.t)) : M (list (string * MITMServer.t)) :=
  match settings with
  | [] => ret servers
  | (key, setting) :: settings' =>
      fun log =>
        match make_config default_settings setting with
        | Ok config_dict =>
            let config := attributes_of config_dict in
            match MITMServer.init env config log with
            | (Raise e, log') =>
                if is_Exception e
                then
                  (emit (print (could_not_create key)) ;;
                   emit traceback_print_exc ;;
                   emit (print newline) ;;
                   start_servers settings' servers) log'
                else (Raise e, log')
            | (Ok server, log') =>
                (emit (print (starting_listener key
                                (MITMSettings.listen_address config)
                                (MITMSettings.server_address config))) ;;
                 emit (serve_forever_thread_start key) ;;
                 start_servers settings' (servers ++ [(key, server)])) log'
            | (OutOfFuel, log') => (OutOfFuel, log')
            end
        | Raise e => (Raise e, log)
        | OutOfFuel => (OutOfFuel, log)
        end
  end.

Definition main (settings : list (string * @dict V)) : M process_end :=
  servers <- start_servers settings [] ;;
  match servers with
  | [] =>
      emit (print "No proxy instance started, quitting.") ;;
      ret (sys_exit 1)
  | _ :: _ => ret (serving servers)
  end.
End Main.

(** After startup the main thread sleeps until [sigint_received] shuts the
    servers down and calls [sys.exit(0)]. *)
Definition exit_status (p : process_end) : Z :=
  match p with
  | sys_exit status => status
  | serving _ => 0
  end.

(** The status of the process: that of its end when the main block runs to
    its end, and 1 when an exception leaves the main block uncaught (a
    [SystemExit] would carry a status of its own). *)
Definition process_status (r : result process_end) : option Z :=
  match r with
  | Ok p => Some (exit_status p)
  | Raise (Lib (PyException cls _)) =>
      if String.eqb cls "SystemExit" then None else Some 1
  | Raise _ => Some 1
  | OutOfFuel => None
  end.

(** ** The interrupt

    [sigint_received] asks every started server to shut down, in the order of
    the [servers] list, and then calls [sys.exit(0)].  The answer of
    [server.shutdown()] is given by [server_shutdown], from the keys of the
    servers asked before and the key of the server; the state threaded through
    is the list of the keys asked so far. *)
Inductive interrupt_end : Type :=
| SystemExit (status : Z)
| interrupted_by (e : lib_exn).

Fixpoint sigint_received (server_shutdown : list string -> string -> lib_result unit)
         (servers : list (string * MITMServer.t)) (asked : list string)
  : interrupt_end * list string :=
  match servers with
  | [] => (SystemExit 0, asked)
  | (key, _) :: servers' =>
      match server_shutdown asked key with
      | Return _ => sigint_received server_shutdown servers' (asked ++ [key])
      | Throw e => (interrupted_by e, asked ++ [key])
      end
  end.

(** The end of the main block: the handler is installed and the main thread
    sleeps inside [try: ... except: pass]; whatever the handler raises,
    [SystemExit] included, is caught there and the script ends, with status
    0. *)
Definition sleep_until_interrupt (server_shutdown : list string -> string -> lib_result unit)
           (servers : list (string * MITMServer.t)) : Z * list string :=
  let (_, asked) := sigint_received server_shutdown servers [] in
  (0, asked).

(** ** Vocabulary of the properties *)

(** The events a computation adds to the log it starts from. *)
Definition events_of {A} (m : M A) (log : list event) : list event :=
  skipn (List.length log) (snd (m log)).

Definition is_read_from (src : endpoint) (c : call) : bool :=
  match c with
  | recv ep _ => endpoint_eqb ep src
  | _ => false
  end.

Definition is_write_to (dst : endpoint) (c : call) : bool :=
  match c with
  | send ep _ | send_range ep _ _ _ => endpoint_eqb ep dst
  | _ => false
  end.

(** Close-notify, shutdown and close: the teardown calls. *)
Definition is_teardown (c : call) : bool :=
  match c with
  | bye _ | shutdown _ | close _ => true
  | _ => false
  end.

Definition is_teardown_of (ep : endpoint) (c : call) : bool :=
  match c with
  | bye e | shutdown e | close e => endpoint_eqb e ep
  | _ => false
  end.

Definition is_close_of (ep : endpoint) (c : call) : bool :=
  match c with
  | close e => endpoint_eqb e ep
  | _ => false
  end.

Definition closes_of (ep : endpoint) (log : list event) : nat :=
  List.length (filter (is_close_of ep) (calls log)).

(** The far endpoint comes into being with its socket and then with
    [LengthHidingClientSession(...)] on that socket. *)
Definition creates_far (c : call) : bool :=
  match c with
  | socket_builder _ _ | LengthHidingClientSession _ => true
  | _ => false
  end.

Definition is_construction (c : call) : bool :=
  match c with
  | TLSContext _ | ThreadingTCPServer_init _ _ => true
  | _ => false
  end.

(** The write of one chunk, as each of the two loops issues it. *)
Definition plain_write (dst : endpoint) (data : string) : call :=
  send dst data.

Definition padded_write (dst : endpoint) (range_low range_high : Z) (data : string) : call :=
  send_range dst data (Z.max range_low (1 - len data)) range_high.

(** Both loops are this loop, at [plain_write] and at [padded_write]. *)
Fixpoint forward_with (env : Env) (fuel : nat) (reader : M (option string))
         (write : string -> call) : M unit :=
  match fuel with
  | O => fun log => (OutOfFuel, log)
  | S fuel' =>
      next <- reader ;;
      match next with
      | None => ret tt
      | Some data =>
          try_except_GNUTLSError
            (call_unit env (write data))
            (fun message => raise (WriterError message)) ;;
          forward_with env fuel' reader write
      end
  end.

(** The runs of a forwarding loop that reads [src] in chunks of at most
    [buffer_size] bytes: the events it adds and how it ends. *)
Inductive loop_run (src : endpoint) (buffer_size : Z) (write : string -> call)
  : list event -> result unit -> Prop :=
| run_out_of_fuel :
    loop_run src buffer_size write [] OutOfFuel
| run_eof :
    loop_run src buffer_size write
      [Ev (recv src buffer_size) (Returns (VStr ""))] (Ok tt)
| run_read_GNUTLSError message :
    loop_run src buffer_size write
      [Ev (recv src buffer_size) (Raises (GNUTLSError message))]
      (Raise (ReaderError message))
| run_read_PyException cls message :
    loop_run src buffer_size write
      [Ev (recv src buffer_size) (Raises (PyException cls message))]
      (Raise (Lib (PyException cls message)))
| run_write_GNUTLSError data message :
    data <> "" ->
    loop_run src buffer_size write
      [Ev (recv src buffer_size) (Returns (VStr data));
       Ev (write data) (Raises (GNUTLSError message))]
      (Raise (WriterError message))
| run_write_PyException data cls message :
    data <> "" ->
    loop_run src buffer_size write
      [Ev (recv src buffer_size) (Returns (VStr data));
       Ev (write data) (Raises (PyException cls message))]
      (Raise (Lib (PyException cls message)))
| run_chunk data rest r :
    data <> "" ->
    loop_run src buffer_size write rest r ->
    loop_run src buffer_size write
      (Ev (recv src buffer_size) (Returns (VStr data))
       :: Ev (write data) (Returns VNone) :: rest) r.

(** What [MITMServer.print_exc] writes. *)
Definition print_exc_calls (config : MITMSettings.t) : list call :=
  if MITMSettings.suppress_exceptions config then []
  else [print dashes; print "Exception happened during processing of request";
        traceback_print_exc; print dashes].

(** How the failure of a call inside a forwarding loop comes out of the loop:
    a [GNUTLSError] is wrapped according to the side that failed, anything
    else is left as it is. *)
Definition surfaces_as (c : call) (e : lib_exn) : exn :=
  match e with
  | GNUTLSError message =>
      match c with
      | recv _ _ => ReaderError message
      | _ => WriterError message
      end
  | PyException _ _ => Lib e
  end.

(** The write each flow issues for a chunk, by its length-hiding flag. *)
Definition write_of (use_length_hiding : bool) (padding_range : Z * Z)
           (dst : endpoint) : string -> call :=
  if use_length_hiding
  then padded_write dst (fst padding_range) (snd padding_range)
  else plain_write dst.

(** [setup] in two halves: the steps on the near endpoint, then the steps
    that create and establish the far one. *)
Definition near_steps (env : Env) (config : MITMSettings.t) : M unit :=
  MITMHandler.handshake_with_client env ;;
  (if MITMSettings.verify_client_identity config
   then MITMHandler.verify_client_identity env else ret tt) ;;
  (if MITMSettings.use_length_hiding_with_client config
   then
     can <- call_bool env (can_use_length_hiding session) ;;
     if negb can then raise (RuntimeError "Can't use length hiding with client")
     else ret tt
   else ret tt).

Definition far_steps (env : Env) (config : MITMSettings.t) : M unit :=
  MITMHandler.build_server_connection env config ;;
  (if MITMSettings.verify_server_identity config
   then MITMHandler.verify_server_identity env else ret tt) ;;
  (if MITMSettings.use_length_hiding_with_server config
   then
     can <- call_bool env (can_use_length_hiding remote) ;;
     if negb can then raise (RuntimeError "Can't use length hiding with server")
     else ret tt
   else ret tt) ;;
  MITMHandler.start_forwarding_thread.

(** The calls of the establishment on the near endpoint, and when one of them
    has failed: it raised, or the capability check answered no. *)
Definition on_near (c : call) : bool :=
  match c with
  | LengthHidingServerSession
  | handshake session
  | verify_peer session
  | check_certificate session
  | can_use_length_hiding session => true
  | _ => false
  end.

Definition near_step_failed (ev : event) : bool :=
  match ev with
  | Ev c (Raises _) => on_near c
  | Ev (can_use_length_hiding session) (Returns (VBool false)) => true
  | _ => false
  end.

(** The near endpoint is through its handshake and the configured checks. *)
Definition near_completed (config : MITMSettings.t) (evs : list event) : Prop :=
  In (Ev (handshake session) (Returns VNone)) evs /\
  (MITMSettings.verify_client_identity config = true ->
   In (Ev (verify_peer session) (Returns VNone)) evs /\
   In (Ev (check_certificate session) (Returns VNone)) evs) /\
  (MITMSettings.use_length_hiding_with_client config = true ->
   In (Ev (can_use_length_hiding session) (Returns (VBool true))) evs) /\
  Forall (fun ev => near_step_failed ev = false) evs.

(** The listener that [MITMServer.init] builds for a configuration. *)
Definition server_of (config : MITMSettings.t) : MITMServer.t :=
  MITMServer.mk config
    (if is_ipv6_address (MITMSettings.listen_address config) then AF_INET6 else AF_INET).

(** Whether the listener of a configuration can be constructed, for an
    environment whose answers to the construction calls do not depend on the
    history. *)
Definition constructs (env : Env) (entry : string * MITMSettings.t) : bool :=
  match fst (MITMServer.init env (snd entry) []) with
  | Ok _ => true
  | _ => false
  end.

Definition construction_independent (env : Env) : Prop :=
  forall h h' c, is_construction c = true -> env_unit env h c = env_unit env h' c.

Definition listener_of (entry : string * MITMSettings.t) : string * MITMServer.t :=
  (fst entry, server_of (snd entry)).

(** A setting has the two keys that the loop reads from it. *)
Definition has_addresses {V} (setting : @dict V) : bool :=
  match lookup setting "server_address", lookup setting "listen_address" with
  | Some _, Some _ => true
  | _, _ => false
  end.

(** The typed configuration of an entry of the settings. *)
Definition entry_of {V} (attributes_of : @dict V -> MITMSettings.t)
           (default_settings : @dict V) (item : string * @dict V)
  : string * MITMSettings.t :=
  (fst item,
   attributes_of match make_config default_settings (snd item) with
                 | Ok config_dict => config_dict
                 | _ => []
                 end).

(** What the construction calls raise is caught by [except Exception]. *)
Definition raises_exceptions_only (env : Env) : Prop :=
  forall h c e,
    is_construction c = true -> env_unit env h c = Throw e -> is_Exception (Lib e) = true.

(** The listeners that the startup loop has started. *)
Definition started {V} (env : Env) (attributes_of : @dict V -> MITMSettings.t)
           (default_settings : @dict V) (settings : list (string * @dict V))
           (log : list event) : list (string * MITMServer.t) :=
  match fst (start_servers env attributes_of default_settings settings [] log) with
  | Ok servers => servers
  | _ => []
  end.

(** Counting in the log of the startup: constructions attempted, failures
    reported, and the keys of the listeners whose serving thread was started. *)
Definition attempts (cs : list call) : nat :=
  List.length (filter (fun c => match c with TLSContext as_server => true | _ => false end) cs).

Definition reports (cs : list call) : nat :=
  List.length (filter (fun c => match c with traceback_print_exc => true | _ => false end) cs).

Definition started_keys (cs : list call) : list string :=
  flat_map (fun c => match c with serve_forever_thread_start key => [key] | _ => [] end) cs.

(** The address family chosen for an address, and the address dialed. *)
Definition family_of (a : address) : address_family :=
  if is_ipv6_address a then AF_INET6 else AF_INET.

Definition dialed (a : address) : address :=
  if is_ipv6_address a then (slice_1_m1 (fst a), snd a) else a.

Definition uses_proxy (config : MITMSettings.t) : bool :=
  match MITMSettings.proxy config with Some _ => true | None => false end.

(** ** Environments of the examples *)

(** Every call returns; every read is an end of stream, every capability
    check says yes. *)
Definition quiet : Env := {|
  env_unit := fun _ _ => Return tt;
  env_bool := fun _ _ => Return true;
  env_data := fun _ _ => Return ""
|}.

Definition example_config : MITMSettings.t := {|
  MITMSettings.server_address := ("example.org", [443]);
  MITMSettings.listen_address := ("127.0.0.1", [8443]);
  MITMSettings.verify_client_identity := false;
  MITMSettings.verify_server_identity := false;
  MITMSettings.use_length_hiding_with_client := false;
  MITMSettings.use_length_hiding_with_server := false;
  MITMSettings.padding_range_with_client := (0, 0);
  MITMSettings.padding_range_with_server := (0, 0);
  MITMSettings.buffer_size := 4096;
  MITMSettings.proxy := None;
  MITMSettings.suppress_exceptions := false;
  MITMSettings.server_name_indicator := "example.org"
|}.

(** The client sends data, the destination is gone: every write to the far
    endpoint fails in the TLS library. *)
Definition far_write_fails : Env := {|
  env_unit := fun _ c =>
    match c with
    | send remote _ | send_range remote _ _ _ => Throw (GNUTLSError "send failed")
    | _ => Return tt
    end;
  env_bool := fun _ _ => Return true;
  env_data := fun _ _ => Return "GET /"
|}.

(** The same, and closing the far endpoint fails too. *)
Definition far_write_and_close_fail : Env := {|
  env_unit := fun _ c =>
    match c with
    | send remote _ | send_range remote _ _ _ => Throw (GNUTLSError "send failed")
    | close remote => Throw (PyException "socket.error" "Bad file descriptor")
    | _ => Return tt
    end;
  env_bool := fun _ _ => Return true;
  env_data := fun _ _ => Return "GET /"
|}.

(** Reading the near endpoint raises an exception that is not a
    [GNUTLSError]; the destination ends its stream. *)
Definition near_read_raises : Env := {|
  env_unit := fun _ _ => Return tt;
  env_bool := fun _ _ => Return true;
  env_data := fun _ c =>
    match c with
    | recv session _ => Throw (PyException "MemoryError" "")
    | _ => Return ""
    end
|}.

(** Reading the far endpoint fails in the TLS library. *)
Definition far_read_fails : Env := {|
  env_unit := fun _ _ => Return tt;
  env_bool := fun _ _ => Return true;
  env_data := fun _ c =>
    match c with
    | recv remote _ => Throw (GNUTLSError "recv failed")
    | _ => Return ""
    end
|}.

(** The handshake with the client fails. *)
Definition near_handshake_fails : Env := {|
  env_unit := fun _ c =>
    match c with
    | handshake session => Throw (GNUTLSError "handshake failed")
    | _ => Return tt
    end;
  env_bool := fun _ _ => Return true;
  env_data := fun _ _ => Return ""
|}.

(** The handshake with the destination fails. *)
Definition far_handshake_fails : Env := {|
  env_unit := fun _ c =>
    match c with
    | handshake remote => Throw (GNUTLSError "handshake failed")
    | _ => Return tt
    end;
  env_bool := fun _ _ => Return true;
  env_data := fun _ _ => Return ""
|}.

(** Closing an endpoint fails. *)
Definition close_fails : Env := {|
  env_unit := fun _ c =>
    match c with
    | close _ => Throw (PyException "socket.error" "Bad file descriptor")
    | _ => Return tt
    end;
  env_bool := fun _ _ => Return true;
  env_data := fun _ _ => Return ""
|}.

(** Binding the address [256.0.0.1] fails; every other listener is built. *)
Definition bad_address_fails : Env := {|
  env_unit := fun _ c =>
    match c with
    | ThreadingTCPServer_init (host, _) _ =>
        if String.eqb host "256.0.0.1"
        then Throw (PyException "socket.gaierror" "Name or service not known")
        else Return tt
    | _ => Return tt
    end;
  env_bool := fun _ _ => Return true;
  env_data := fun _ _ => Return ""
|}.

Definition listening_on (host : string) : MITMSettings.t := {|
  MITMSettings.server_address := ("example.org", [443]);
  MITMSettings.listen_address := (host, [8443]);
  MITMSettings.verify_client_identity := false;
  MITMSettings.verify_server_identity := false;
  MITMSettings.use_length_hiding_with_client := false;
  MITMSettings.use_length_hiding_with_server := false;
  MITMSettings.padding_range_with_client := (0, 0);
  MITMSettings.padding_range_with_server := (0, 0);
  MITMSettings.buffer_size := 4096;
  MITMSettings.proxy := None;
  MITMSettings.suppress_exceptions := false;
  MITMSettings.server_name_indicator := "example.org"
|}.

(** In the examples the values of the settings are addresses. *)
Definition setting_for (host : string) : @dict address :=
  [("server_address", ("example.org", [443])); ("listen_address", (host, [8443]))].

Definition example_attributes (d : @dict address) : MITMSettings.t :=
  match lookup d "listen_address" with
  | Some (host, _) => listening_on host
  | None => example_config
  end.

Definition three_relays : list (string * @dict address) :=
  [("a", setting_for "127.0.0.1"); ("b", setting_for "256.0.0.1");
   ("c", setting_for "[::1]")].

(** Relay [b] has no [server_address]. *)
Definition second_relay_malformed : list (string * @dict address) :=
  [("a", setting_for "127.0.0.1");
   ("b", [("listen_address", ("127.0.0.2", [8443]))]);
   ("c", setting_for "[::1]")].

Definition to_ipv6_loopback : MITMSettings.t := {|
  MITMSettings.server_address := ("[::1]", [443]);
  MITMSettings.listen_address := ("[::]", [8443]);
  MITMSettings.verify_client_identity := false;
  MITMSettings.verify_server_identity := false;
  MITMSettings.use_length_hiding_with_client := false;
  MITMSettings.use_length_hiding_with_server := false;
  MITMSettings.padding_range_with_client := (0, 0);
  MITMSettings.padding_range_with_server := (0, 0);
  MITMSettings.buffer_size := 4096;
  MITMSettings.proxy := None;
  MITMSettings.suppress_exceptions := false;
  MITMSettings.server_name_indicator := "localhost"
|}.

(** Length hiding towards the destination with the padding range (5, 10). *)
Definition padding_5_10 : MITMSettings.t := {|
  MITMSettings.server_address := ("example.org", [443]);
  MITMSettings.listen_address := ("127.0.0.1", [8443]);
  MITMSettings.verify_client_identity := false;
  MITMSettings.verify_server_identity := false;
  MITMSettings.use_length_hiding_with_client := false;
  MITMSettings.use_length_hiding_with_server := true;
  MITMSettings.padding_range_with_client := (0, 0);
  MITMSettings.padding_range_with_server := (5, 10);
  MITMSettings.buffer_size := 4096;
  MITMSettings.proxy := None;
  MITMSettings.suppress_exceptions := false;
  MITMSettings.server_name_indicator := "example.org"
|}.

(** The client sends one chunk of nine bytes and ends its stream. *)
Definition one_chunk : Env := {|
  env_unit := fun _ _ => Return tt;
  env_bool := fun _ _ => Return true;
  env_data := fun h _ =>
    match h with
    | [] => Return "GET /a/b "
    | _ => Return ""
    end
|}.

(** ** Vocabulary of the further properties *)

(** The chunks a flow has read, those it has tried to write, and those whose
    write returned. *)
Definition read_chunks (log : list event) : list string :=
  flat_map (fun ev =>
              match ev with
              | Ev (recv _ _) (Returns (VStr data)) => [data]
              | _ => []
              end) log.

Definition written_chunks (log : list event) : list string :=
  flat_map (fun ev =>
              match ev with
              | Ev (send _ data) _ | Ev (send_range _ data _ _) _ => [data]
              | _ => []
              end) log.

Definition delivered_chunks (log : list event) : list string :=
  flat_map (fun ev =>
              match ev with
              | Ev (send _ data) (Returns _)
              | Ev (send_range _ data _ _) (Returns _) => [data]
              | _ => []
              end) log.

Definition nonempty (data : string) : bool := negb (String.eqb data "").

(** The reads and writes a flow from [src] to [dst] may issue. *)
Definition transfers_between (src dst : endpoint) (buffer_size : Z) (c : call) : Prop :=
  match c with
  | recv ep n => ep = src /\ n = buffer_size
  | send ep _ | send_range ep _ _ _ => ep = dst
  | _ => True
  end.

Definition returned (ev : event) : bool :=
  match ev with
  | Ev _ (Returns _) => true
  | Ev _ (Raises _) => false
  end.

(** The far endpoint is connected, through its handshake and through the
    configured checks. *)
Definition far_completed (config : MITMSettings.t) (evs : list event) : Prop :=
  In (Ev (connect remote (dialed (MITMSettings.server_address config))) (Returns VNone)) evs /\
  In (Ev (handshake remote) (Returns VNone)) evs /\
  (MITMSettings.verify_server_identity config = true ->
   In (Ev (verify_peer remote) (Returns VNone)) evs /\
   In (Ev (check_certificate remote) (Returns VNone)) evs) /\
  (MITMSettings.use_length_hiding_with_server config = true ->
   In (Ev (can_use_length_hiding remote) (Returns (VBool true))) evs).

(** The calls that [setup] may issue under a configuration. *)
Definition setup_may_call (config : MITMSettings.t) (c : call) : Prop :=
  match c with
  | LengthHidingServerSession | handshake _ | forwarding_thread_start => True
  | verify_peer session | check_certificate session =>
      MITMSettings.verify_client_identity config = true
  | verify_peer remote | check_certificate remote =>
      MITMSettings.verify_server_identity config = true
  | can_use_length_hiding session =>
      MITMSettings.use_length_hiding_with_client config = true
  | can_use_length_hiding remote =>
      MITMSettings.use_length_hiding_with_server config = true
  | socket_builder use_proxy family =>
      use_proxy = uses_proxy config /\
      family = family_of (MITMSettings.server_address config)
  | set_proxy descriptor => MITMSettings.proxy config = Some descriptor
  | LengthHidingClientSession sni => sni = MITMSettings.server_name_indicator config
  | connect ep a => ep = remote /\ a = dialed (MITMSettings.server_address config)
  | _ => False
  end.

(** The steps of [build_server_connection] that use the socket after it was
    configured. *)
Definition uses_far_socket (c : call) : bool :=
  match c with
  | LengthHidingClientSession _ | connect _ _ | handshake remote => true
  | _ => false
  end.

(** The destination is reached through a SOCKS proxy. *)
Definition through_proxy : MITMSettings.t := {|
  MITMSettings.server_address := ("example.org", [443]);
  MITMSettings.listen_address := ("127.0.0.1", [8443]);
  MITMSettings.verify_client_identity := false;
  MITMSettings.verify_server_identity := true;
  MITMSettings.use_length_hiding_with_client := false;
  MITMSettings.use_length_hiding_with_server := false;
  MITMSettings.padding_range_with_client := (0, 0);
  MITMSettings.padding_range_with_server := (0, 0);
  MITMSettings.buffer_size := 4096;
  MITMSettings.proxy := Some ["SOCKS5"; "127.0.0.1"; "9050"];
  MITMSettings.suppress_exceptions := false;
  MITMSettings.server_name_indicator := "example.org"
|}.

(** * Properties *)

(** ** The log only grows *)

Lemma skipn_length_app {A} (l new : list A) : skipn (List.length l) (l ++ new) = new.
Proof. induction l as [|x l IH]; simpl; auto. Qed.

Lemma events_of_app {A} (m : M A) (log new : list event) (r : result A) :
  m log = (r, log ++ new) -> events_of m log = new.
Proof. unfold events_of. intros ->. simpl. apply skipn_length_app. Qed.

Lemma calls_app (l1 l2 : list event) : calls (l1 ++ l2) = calls l1 ++ calls l2.
Proof. apply map_app. Qed.

Lemma len_zero (data : string) : (len data =? 0) = true -> data = "".
Proof.
  unfold len. intros H. apply Z.eqb_eq in H.
  destruct data; [reflexivity | simpl in H; lia].
Qed.

Lemma len_nonzero (data : string) : (len data =? 0) = false -> data <> "".
Proof. intros H ->. discriminate H. Qed.

(** One call on a collaborator adds one event, whose outcome is the answer of
    the environment. *)
Lemma call_unit_cases (env : Env) (c : call) (log : list event) :
  (env_unit env log c = Return tt /\
   call_unit env c log = (Ok tt, log ++ [Ev c (Returns VNone)])) \/
  (exists e, env_unit env log c = Throw e /\
             call_unit env c log = (Raise (Lib e), log ++ [Ev c (Raises e)])).
Proof.
  unfold call_unit. destruct (env_unit env log c) as [[]|e]; [left | right; exists e]; auto.
Qed.

(** ** The forwarding loops *)

Section Loops.
Variable env : Env.

Lemma forward_connection_forward_with fuel reader dst :
  forward_connection env fuel reader dst = forward_with env fuel reader (plain_write dst).
Proof. induction fuel as [|fuel IH]; simpl; [reflexivity | now rewrite IH]. Qed.

Lemma forward_connection_with_padding_forward_with fuel reader dst range_low range_high :
  forward_connection_with_padding env fuel reader dst range_low range_high
  = forward_with env fuel reader (padded_write dst range_low range_high).
Proof. induction fuel as [|fuel IH]; simpl; [reflexivity | now rewrite IH]. Qed.

Variable src : endpoint.
Variable buffer_size : Z.
Variable write : string -> call.

(** What one step of the generator does. *)
Lemma connection_reader_cases log :
  (env_data env log (recv src buffer_size) = Return "" /\
   connection_reader env src buffer_size log
   = (Ok None, log ++ [Ev (recv src buffer_size) (Returns (VStr ""))])) \/
  (exists data, data <> "" /\
     env_data env log (recv src buffer_size) = Return data /\
     connection_reader env src buffer_size log
     = (Ok (Some data), log ++ [Ev (recv src buffer_size) (Returns (VStr data))])) \/
  (exists message,
     env_data env log (recv src buffer_size) = Throw (GNUTLSError message) /\
     connection_reader env src buffer_size log
     = (Raise (ReaderError message),
        log ++ [Ev (recv src buffer_size) (Raises (GNUTLSError message))])) \/
  (exists cls message,
     env_data env log (recv src buffer_size) = Throw (PyException cls message) /\
     connection_reader env src buffer_size log
     = (Raise (Lib (PyException cls message)),
        log ++ [Ev (recv src buffer_size) (Raises (PyException cls message))])).
Proof.
  unfold connection_reader, bind, try_except_GNUTLSError, call_data, raise, ret.
  destruct (env_data env log (recv src buffer_size)) as [data|[message|cls message]].
  - destruct (len data =? 0) eqn:E.
    + apply len_zero in E. subst data. left. auto.
    + apply len_nonzero in E. right; left. exists data. auto.
  - right; right; left. exists message. auto.
  - right; right; right. exists cls, message. auto.
Qed.

(** Every run of the loop is one of [loop_run]. *)
Lemma forward_with_loop_run fuel : forall log,
  exists new r,
    forward_with env fuel (connection_reader env src buffer_size) write log
    = (r, log ++ new) /\
    loop_run src buffer_size write new r.
Proof.
  induction fuel as [|fuel IH]; intros log; simpl.
  - exists [], OutOfFuel. rewrite app_nil_r. split; [reflexivity | constructor].
  - unfold bind at 1.
    destruct (connection_reader_cases log)
      as [[_ ->]|[(data & Hd & _ & ->)|[(message & _ & ->)|(cls & message & _ & ->)]]].
    + eexists _, _. split; [reflexivity | constructor].
    + unfold bind, try_except_GNUTLSError, raise.
      destruct (call_unit_cases env (write data)
                  (log ++ [Ev (recv src buffer_size) (Returns (VStr data))]))
        as [[_ ->]|([message|cls message] & _ & ->)].
      * destruct (IH ((log ++ [Ev (recv src buffer_size) (Returns (VStr data))])
                        ++ [Ev (write data) (Returns VNone)]))
          as (new & r & -> & Hrun).
        exists (Ev (recv src buffer_size) (Returns (VStr data))
                :: Ev (write data) (Returns VNone) :: new), r.
        split; [now rewrite <- !app_assoc | now constructor].
      * eexists _, _. split; [now rewrite <- app_assoc | now constructor].
      * eexists _, _. split; [now rewrite <- app_assoc | now constructor].
    + eexists _, _. split; [reflexivity | constructor].
    + eexists _, _. split; [reflexivity | constructor].
Qed.

(** A run that does not run out of fuel is the same with more fuel. *)
Lemma forward_with_more_fuel fuel : forall log r log',
  forward_with env fuel (connection_reader env src buffer_size) write log = (r, log') ->
  r <> OutOfFuel ->
  forall extra,
    forward_with env (fuel + extra) (connection_reader env src buffer_size) write log
    = (r, log').
Proof.
  induction fuel as [|fuel IH]; intros log r log' H Hr extra; simpl in *.
  - inversion H; subst. congruence.
  - unfold bind at 1. unfold bind at 1 in H.
    destruct (connection_reader env src buffer_size log) as [[[data|]| |] l1]; auto.
    unfold bind in *.
    destruct (try_except_GNUTLSError (call_unit env (write data))
                (fun message => raise (WriterError message)) l1) as [[[]| |] l2]; auto.
Qed.
End Loops.

Section LoopRuns.
Variables src dst : endpoint.
Variable buffer_size : Z.
Variable write : string -> call.
Hypothesis write_to_dst : forall data, is_write_to dst (write data) = true.

Lemma write_not_recv data : forall ep n, write data <> recv ep n.
Proof.
  intros ep n E. pose proof (write_to_dst data) as H. rewrite E in H. discriminate H.
Qed.

(** The loop only reads its source and writes its destination. *)
Lemma loop_run_transfers new r :
  loop_run src buffer_size write new r ->
  Forall (fun c => is_read_from src c || is_write_to dst c = true) (calls new).
Proof.
  assert (Hr : is_read_from src (recv src buffer_size) = true)
    by (simpl; destruct src; reflexivity).
  induction 1; simpl; repeat constructor;
    rewrite ?Hr, ?write_to_dst, ?orb_true_r; auto.
Qed.

Lemma loop_run_no_teardown new r :
  loop_run src buffer_size write new r ->
  Forall (fun c => is_teardown c = false) (calls new).
Proof.
  intros H. apply loop_run_transfers in H.
  eapply Forall_impl; [|exact H]. intros c Hc.
  destruct c; simpl in *; try reflexivity; discriminate Hc.
Qed.

(** How a run ends, read off its last event. *)
Lemma loop_run_ends new r :
  loop_run src buffer_size write new r ->
  match r with
  | Ok _ => exists pre, new = pre ++ [Ev (recv src buffer_size) (Returns (VStr ""))]
  | Raise (ReaderError message) =>
      exists pre, new = pre ++ [Ev (recv src buffer_size) (Raises (GNUTLSError message))]
  | Raise (WriterError message) =>
      exists pre data,
        data <> "" /\ new = pre ++ [Ev (write data) (Raises (GNUTLSError message))]
  | Raise (Lib e) =>
      exists pre c cls message,
        e = PyException cls message /\ new = pre ++ [Ev c (Raises e)] /\
        (c = recv src buffer_size \/ exists data, data <> "" /\ c = write data)
  | OutOfFuel => True
  end.
Proof.
  induction 1.
  - exact I.
  - exists []. reflexivity.
  - exists []. reflexivity.
  - exists [], (recv src buffer_size), cls, message. auto.
  - exists [Ev (recv src buffer_size) (Returns (VStr data))], data. auto.
  - exists [Ev (recv src buffer_size) (Returns (VStr data))], (write data), cls, message.
    repeat split; eauto.
  - destruct r as [[]|[e|message|message]|]; auto.
    + destruct IHloop_run as (pre & ->). eexists (_ :: _ :: pre). reflexivity.
    + destruct IHloop_run as (pre & c & cls & message & -> & -> & Hc).
      eexists (_ :: _ :: pre), c, cls, message.
      split; [reflexivity | split; [reflexivity | assumption]].
    + destruct IHloop_run as (pre & ->). eexists (_ :: _ :: pre). reflexivity.
    + destruct IHloop_run as (pre & d & Hd & ->). eexists (_ :: _ :: pre), d.
      split; [assumption | reflexivity].
Qed.

(** A call that fails ends the loop, and its exception comes out of the loop
    as [surfaces_as] says. *)
Lemma loop_run_failure new r :
  loop_run src buffer_size write new r ->
  forall pre c e post,
    new = pre ++ Ev c (Raises e) :: post ->
    post = [] /\ r = Raise (surfaces_as c e).
Proof.
  induction 1; intros pre c e post E.
  - destruct pre; discriminate E.
  - destruct pre as [|? [|? ?]]; discriminate E.
  - destruct pre as [|? [|? ?]]; inversion E; subst. auto.
  - destruct pre as [|? [|? ?]]; inversion E; subst. auto.
  - destruct pre as [|? [|? [|? ?]]]; inversion E; subst. split; [reflexivity|].
    simpl. pose proof (write_not_recv data) as Hn.
    destruct (write data); try reflexivity. exfalso. eapply Hn. reflexivity.
  - destruct pre as [|? [|? [|? ?]]]; inversion E; subst. auto.
  - destruct pre as [|? [|? pre]]; inversion E; subst. eauto.
Qed.
End LoopRuns.

Lemma loop_run_calls src buffer_size write new r :
  loop_run src buffer_size write new r ->
  Forall (fun c => c = recv src buffer_size \/ exists data, data <> "" /\ c = write data)
         (calls new).
Proof.
  induction 1; simpl;
    repeat match goal with
           | |- Forall _ (_ :: _) => apply Forall_cons
           | |- Forall _ [] => apply Forall_nil
           end;
    auto; right; eauto.
Qed.

(** ** Padding policy *)

(** C1. For a chunk of length [L] and a configured range [(low, high)] with
    [low <= high], [send_range_safe] calls [send_range] with the range
    [(max low (1 - L), high)], and so does every write of the padded loop;
    with a padding amount [p] in that range the length on the wire, [L + p],
    lies between [L + max low (1 - L)] and [L + high] and is at least 1. *)
Theorem send_range_safe_padding_floor :
  forall (env : Env) (dst : endpoint) (data : string) (low high : Z) (log : list event),
    low <= high ->
    let L := len data in
    let low' := Z.max low (1 - L) in
    0 <= L /\
    calls (events_of (send_range_safe env dst data low high) log)
    = [send_range dst data low' high] /\
    (forall fuel src buffer_size,
        Forall (fun c => c = recv src buffer_size \/
                         exists chunk, c = send_range dst chunk (Z.max low (1 - len chunk)) high)
               (calls (events_of
                         (forward_connection_with_padding env fuel
                            (connection_reader env src buffer_size) dst low high) log))) /\
    1 <= L + low' /\
    (forall p, low' <= p <= high -> L + low' <= L + p <= L + high /\ 1 <= L + p).
Proof.
  intros env dst data low high log Hrange L low'.
  split; [unfold L, len; lia|].
  split.
  - unfold send_range_safe.
    destruct (call_unit_cases env (send_range dst data low' high) log)
      as [[_ H]|(e & _ & H)];
      fold L; fold low'; rewrite (events_of_app _ _ _ _ H); reflexivity.
  - split; [|split; [lia | intros p Hp; lia]].
    intros fuel src buffer_size.
    rewrite forward_connection_with_padding_forward_with.
    destruct (forward_with_loop_run env src buffer_size (padded_write dst low high) fuel log)
      as (new & r & H & Hrun).
    rewrite (events_of_app _ _ _ _ H).
    apply loop_run_calls in Hrun.
    eapply Forall_impl; [|exact Hrun].
    intros c [->|(chunk & _ & ->)]; [left; reflexivity | right; exists chunk; reflexivity].
Qed.

(** The example of the specification: an empty chunk with [low = -5]. *)
Lemma send_range_safe_padding_floor_witness :
  -5 <= 3 /\
  calls (events_of (send_range_safe quiet remote "" (-5) 3) []) = [send_range remote "" 1 3] /\
  1 <= 0 + 1.
Proof.
  split; [lia|].
  destruct (send_range_safe_padding_floor quiet remote "" (-5) 3 [] ltac:(lia))
    as (_ & Hcall & _ & Hfloor & _).
  split; [exact Hcall | exact Hfloor].
Defined.

(** ** Teardown helpers *)

Section Teardown.
Variable env : Env.

(** A guarded call always returns, whatever the call does. *)
Lemma guarded_call_returns (c : call) (log : list event) :
  exists o, try_except_pass (call_unit env c) log = (Ok tt, log ++ [Ev c o]).
Proof.
  unfold try_except_pass.
  destruct (call_unit_cases env c log) as [[_ ->]|(e & _ & ->)]; eauto.
Qed.

(** Guarded [shutdown], then [close] outside the guard: the outcome is that
    of [close]. *)
Lemma shutdown_close_cases (ep : endpoint) (log : list event) :
  exists o,
    (env_unit env (log ++ [Ev (shutdown ep) o]) (close ep) = Return tt /\
     (try_except_pass (call_unit env (shutdown ep)) ;; call_unit env (close ep)) log
     = (Ok tt, log ++ [Ev (shutdown ep) o; Ev (close ep) (Returns VNone)])) \/
    (exists e,
        env_unit env (log ++ [Ev (shutdown ep) o]) (close ep) = Throw e /\
        (try_except_pass (call_unit env (shutdown ep)) ;; call_unit env (close ep)) log
        = (Raise (Lib e), log ++ [Ev (shutdown ep) o; Ev (close ep) (Raises e)])).
Proof.
  destruct (guarded_call_returns (shutdown ep) log) as (o & H).
  exists o. unfold bind. rewrite H.
  destruct (call_unit_cases env (close ep) (log ++ [Ev (shutdown ep) o]))
    as [[E ->]|(e & E & ->)]; rewrite <- app_assoc; simpl; eauto.
Qed.

Lemma say_bye_to_remote_returns log :
  exists o, MITMHandler.say_bye_to_remote env log = (Ok tt, log ++ [Ev (bye remote) o]).
Proof. apply guarded_call_returns. Qed.

Lemma say_bye_to_origin_returns log :
  exists o, MITMHandler.say_bye_to_origin env log = (Ok tt, log ++ [Ev (bye session) o]).
Proof. apply guarded_call_returns. Qed.

Lemma say_bye_to_dst_returns dst log :
  exists o, ForwardingThread.say_bye_to_dst env dst log = (Ok tt, log ++ [Ev (bye dst) o]).
Proof. apply guarded_call_returns. Qed.

(** The calls of the closing helper do not depend on their outcomes. *)
Lemma shutdown_close_calls (ep : endpoint) (log : list event) :
  calls (snd ((try_except_pass (call_unit env (shutdown ep)) ;;
               call_unit env (close ep)) log))
  = calls log ++ [shutdown ep; close ep].
Proof.
  destruct (shutdown_close_cases ep log) as (o & [[_ ->]|(e & _ & ->)]);
    simpl; rewrite calls_app; reflexivity.
Qed.
End Teardown.

Lemma write_of_writes use_length_hiding padding_range dst data :
  is_write_to dst (write_of use_length_hiding padding_range dst data) = true.
Proof. destruct use_length_hiding, dst; reflexivity. Qed.

(** The forwarding loop of either flow is a [loop_run]. *)
Lemma handler_forwarding_loop_run env config fuel log :
  exists new r,
    MITMHandler.forwarding env config fuel log = (r, log ++ new) /\
    loop_run session (MITMSettings.buffer_size config)
      (write_of (MITMSettings.use_length_hiding_with_server config)
                (MITMSettings.padding_range_with_server config) remote) new r.
Proof.
  unfold MITMHandler.forwarding, write_of.
  destruct (MITMSettings.use_length_hiding_with_server config).
  - rewrite forward_connection_with_padding_forward_with. apply forward_with_loop_run.
  - rewrite forward_connection_forward_with. apply forward_with_loop_run.
Qed.

Lemma thread_forwarding_loop_run env src dst config fuel log :
  exists new r,
    ForwardingThread.forwarding env src dst config fuel log = (r, log ++ new) /\
    loop_run src (MITMSettings.buffer_size config)
      (write_of (MITMSettings.use_length_hiding_with_client config)
                (MITMSettings.padding_range_with_client config) dst) new r.
Proof.
  unfold ForwardingThread.forwarding, write_of.
  destruct (MITMSettings.use_length_hiding_with_client config).
  - rewrite forward_connection_with_padding_forward_with. apply forward_with_loop_run.
  - rewrite forward_connection_forward_with. apply forward_with_loop_run.
Qed.

(** ** The inline flow: [MITMHandler.handle] *)

(** What [handle] does after its forwarding loop, row by row; in each row the
    first alternative is the one where closing the far endpoint returns. *)
Lemma handle_cases env config fuel log r l1 :
  MITMHandler.forwarding env config fuel log = (r, l1) ->
  match r with
  | Raise (ReaderError message) =>
      exists o1 o2,
        MITMHandler.handle env config fuel log
        = (Raise (ReaderError message),
           l1 ++ [Ev (bye remote) o1; Ev (shutdown remote) o2;
                  Ev (close remote) (Returns VNone)]) \/
        exists e,
          env_unit env (l1 ++ [Ev (bye remote) o1; Ev (shutdown remote) o2]) (close remote)
          = Throw e /\
          MITMHandler.handle env config fuel log
          = (Raise (Lib e),
             l1 ++ [Ev (bye remote) o1; Ev (shutdown remote) o2;
                    Ev (close remote) (Raises e)])
  | Raise (WriterError message) =>
      exists o2 o3,
        MITMHandler.handle env config fuel log
        = (Raise (WriterError message),
           l1 ++ [Ev (shutdown remote) o2; Ev (close remote) (Returns VNone);
                  Ev (bye session) o3]) \/
        exists e,
          env_unit env (l1 ++ [Ev (shutdown remote) o2]) (close remote) = Throw e /\
          MITMHandler.handle env config fuel log
          = (Raise (Lib e),
             l1 ++ [Ev (shutdown remote) o2; Ev (close remote) (Raises e)])
  | Ok _ =>
      exists o1 o2 o3,
        MITMHandler.handle env config fuel log
        = (Ok tt,
           l1 ++ [Ev (bye remote) o1; Ev (shutdown remote) o2;
                  Ev (close remote) (Returns VNone); Ev (bye session) o3]) \/
        exists e,
          env_unit env (l1 ++ [Ev (bye remote) o1; Ev (shutdown remote) o2]) (close remote)
          = Throw e /\
          MITMHandler.handle env config fuel log
          = (Raise (Lib e),
             l1 ++ [Ev (bye remote) o1; Ev (shutdown remote) o2;
                    Ev (close remote) (Raises e)])
  | Raise (Lib e) => MITMHandler.handle env config fuel log = (Raise (Lib e), l1)
  | OutOfFuel => MITMHandler.handle env config fuel log = (OutOfFuel, l1)
  end.
Proof.
  intros Hfw. unfold MITMHandler.handle. rewrite Hfw.
  destruct r as [[]|[e|message|message]|]; try reflexivity.
  - (* clean end of stream *)
    destruct (say_bye_to_remote_returns env l1) as (o1 & H1).
    destruct (shutdown_close_cases env remote (l1 ++ [Ev (bye remote) o1]))
      as (o2 & [[_ H2]|(e & E & H2)]).
    + destruct (say_bye_to_origin_returns env
                  ((l1 ++ [Ev (bye remote) o1])
                     ++ [Ev (shutdown remote) o2; Ev (close remote) (Returns VNone)]))
        as (o3 & H3).
      exists o1, o2, o3. left.
      unfold bind at 1. rewrite H1. unfold bind at 1.
      unfold MITMHandler.close_remote. rewrite H2, H3.
      now rewrite <- !app_assoc.
    + exists o1, o2, (Returns VNone). right. exists e.
      rewrite <- app_assoc in E. split; [exact E|].
      unfold bind at 1. rewrite H1. unfold bind at 1.
      unfold MITMHandler.close_remote. rewrite H2.
      now rewrite <- !app_assoc.
  - (* ReaderError *)
    destruct (say_bye_to_remote_returns env l1) as (o1 & H1).
    destruct (shutdown_close_cases env remote (l1 ++ [Ev (bye remote) o1]))
      as (o2 & [[_ H2]|(e & E & H2)]); exists o1, o2.
    + left. unfold bind at 1. rewrite H1. unfold bind at 1.
      unfold MITMHandler.close_remote. rewrite H2.
      unfold raise. now rewrite <- !app_assoc.
    + right. exists e. rewrite <- app_assoc in E. split; [exact E|].
      unfold bind at 1. rewrite H1. unfold bind at 1.
      unfold MITMHandler.close_remote. rewrite H2.
      now rewrite <- !app_assoc.
  - (* WriterError *)
    destruct (shutdown_close_cases env remote l1) as (o2 & [[_ H2]|(e & E & H2)]).
    + destruct (say_bye_to_origin_returns env
                  (l1 ++ [Ev (shutdown remote) o2; Ev (close remote) (Returns VNone)]))
        as (o3 & H3).
      exists o2, o3. left. unfold bind at 1.
      unfold MITMHandler.close_remote. rewrite H2.
      unfold bind. rewrite H3. unfold raise. now rewrite <- !app_assoc.
    + exists o2, (Returns VNone). right. exists e. split; [exact E|].
      unfold bind at 1. unfold MITMHandler.close_remote. rewrite H2. reflexivity.
Qed.


Ltac enumerate_prefixes E pre :=
  first
    [ solve [destruct pre; discriminate E]
    | destruct pre as [|? pre]; simpl in E;
      [ inversion E; subst; clear E
      | injection E as ? E; subst; enumerate_prefixes E pre ] ].



(** ** The flow of the forwarding thread: [ForwardingThread.run] *)

Lemma calls_events_of {A} (m : M A) (log : list event) (cs : list call) :
  calls (snd (m log)) = calls log ++ cs -> calls (events_of m log) = cs.
Proof.
  intros H. unfold events_of, calls in *. rewrite <- skipn_map, H.
  rewrite <- (length_map ev_call log). apply skipn_length_app.
Qed.

Lemma print_exc_returns config log :
  exists new,
    MITMServer.print_exc config log = (Ok tt, log ++ new) /\
    calls new = print_exc_calls config.
Proof.
  unfold MITMServer.print_exc, print_exc_calls.
  destruct (MITMSettings.suppress_exceptions config).
  - exists []. rewrite app_nil_r. split; reflexivity.
  - eexists. unfold bind, emit. rewrite <- !app_assoc. simpl. split; reflexivity.
Qed.

(** What [run] does after its forwarding loop. *)
Lemma run_cases env src dst config fuel log r l1 :
  ForwardingThread.forwarding env src dst config fuel log = (r, l1) ->
  match r with
  | Ok _ =>
      calls (snd (ForwardingThread.run env src dst config fuel log))
      = calls l1 ++ [bye dst; shutdown dst; close dst]
  | Raise _ =>
      calls (snd (ForwardingThread.run env src dst config fuel log))
      = calls l1 ++ print_exc_calls config ++ [shutdown dst; close dst]
  | OutOfFuel => ForwardingThread.run env src dst config fuel log = (OutOfFuel, l1)
  end.
Proof.
  intros Hfw.
  destruct r as [[]|e|]; unfold ForwardingThread.run; unfold bind at 1; rewrite Hfw.
  - destruct (say_bye_to_dst_returns env dst l1) as (o & ->).
    unfold ForwardingThread.close_dst. rewrite shutdown_close_calls.
    rewrite calls_app, <- app_assoc. reflexivity.
  - destruct (print_exc_returns config l1) as (new & -> & Hnew).
    unfold ForwardingThread.close_dst. rewrite shutdown_close_calls.
    rewrite calls_app, Hnew, <- app_assoc. reflexivity.
  - reflexivity.
Qed.

Lemma print_exc_calls_no_teardown config :
  Forall (fun c => is_teardown c = false) (print_exc_calls config).
Proof.
  unfold print_exc_calls. destruct (MITMSettings.suppress_exceptions config);
    repeat constructor.
Qed.

Lemma no_teardown_no_endpoint ep cs :
  Forall (fun c => is_teardown c = false) cs ->
  Forall (fun c => is_teardown_of ep c = false) cs.
Proof.
  apply Forall_impl. intros c Hc. destruct c; simpl in *; congruence.
Qed.

Lemma no_teardown_no_close ep cs :
  Forall (fun c => is_teardown c = false) cs -> filter (is_close_of ep) cs = [].
Proof.
  induction 1 as [|c cs Hc _ IH]; simpl; [reflexivity|].
  rewrite IH. destruct c; simpl in *; congruence.
Qed.


(** ** Who closes which endpoint *)

(** The calls of [handle] after its loop, whether or not [close] returns: the
    teardown of the far endpoint, then possibly close-notify to the near one. *)
Lemma handle_calls env config fuel log r l1 :
  MITMHandler.forwarding env config fuel log = (r, l1) ->
  exists tail,
    (tail = [] \/ tail = [bye session]) /\
    calls (snd (MITMHandler.handle env config fuel log))
    = calls l1
      ++ match r with
         | Ok _ | Raise (ReaderError _) => [bye remote; shutdown remote; close remote]
         | Raise (WriterError _) => [shutdown remote; close remote]
         | Raise (Lib _) | OutOfFuel => []
         end
      ++ tail.
Proof.
  intros Hfw. pose proof (handle_cases env config fuel log r l1 Hfw) as H.
  destruct r as [[]|[e|message|message]|].
  - destruct H as (o1 & o2 & o3 & [->|(e & _ & ->)]).
    + exists [bye session]. split; [auto|]. simpl. rewrite calls_app. reflexivity.
    + exists []. split; [auto|]. simpl. rewrite calls_app. reflexivity.
  - exists []. rewrite H. simpl. rewrite app_nil_r. auto.
  - destruct H as (o1 & o2 & [->|(e & _ & ->)]);
      exists []; (split; [auto|]); simpl; rewrite calls_app; reflexivity.
  - destruct H as (o2 & o3 & [->|(e & _ & ->)]).
    + exists [bye session]. split; [auto|]. simpl. rewrite calls_app. reflexivity.
    + exists []. split; [auto|]. simpl. rewrite calls_app. reflexivity.
  - exists []. rewrite H. simpl. rewrite app_nil_r. auto.
Qed.

(** C3, as stated, fails when an exception that is not a [GNUTLSError] ends
    the loop of the inline flow: [handle] then closes nothing, and the
    forwarding thread never closes the far endpoint, so the far endpoint is
    closed by neither flow although both have ended. *)
Lemma far_endpoint_closed_by_neither :
  MITMHandler.handle near_read_raises example_config 1 []
  = (Raise (Lib (PyException "MemoryError" "")),
     [Ev (recv session 4096) (Raises (PyException "MemoryError" ""))]) /\
  MITMHandler.forwarding_thread_run near_read_raises example_config 1 []
  = (Ok tt,
     [Ev (recv remote 4096) (Returns (VStr "")); Ev (bye session) (Returns VNone);
      Ev (shutdown session) (Returns VNone); Ev (close session) (Returns VNone)]) /\
  closes_of remote (events_of (MITMHandler.handle near_read_raises example_config 1) [])
  = 0%nat /\
  closes_of remote
    (events_of (MITMHandler.forwarding_thread_run near_read_raises example_config 1) [])
  = 0%nat.
Proof. repeat split; reflexivity. Qed.

(** C3 (amended).  The inline flow never closes the near endpoint and the
    forwarding thread never closes the far one.  The forwarding thread closes
    the near endpoint exactly once whenever its loop ends.  The inline flow
    closes the far endpoint exactly once when its loop ends with a clean end
    of stream, a [ReaderError] or a [WriterError]; when another exception ends
    its loop it closes nothing. *)
Theorem close_ownership :
  forall (env_inline env_thread : Env) (config : MITMSettings.t)
         (fuel_inline fuel_thread : nat) (log_inline log_thread : list event),
    let inline :=
      events_of (MITMHandler.handle env_inline config fuel_inline) log_inline in
    let thread :=
      events_of (MITMHandler.forwarding_thread_run env_thread config fuel_thread)
                log_thread in
    closes_of session inline = 0%nat /\
    closes_of remote thread = 0%nat /\
    match fst (ForwardingThread.forwarding env_thread remote session config
                 fuel_thread log_thread) with
    | OutOfFuel => closes_of session thread = 0%nat
    | Ok _ | Raise _ => closes_of session thread = 1%nat
    end /\
    match fst (MITMHandler.forwarding env_inline config fuel_inline log_inline) with
    | Ok _ | Raise (ReaderError _) | Raise (WriterError _) =>
        closes_of remote inline = 1%nat
    | Raise (Lib _) | OutOfFuel => closes_of remote inline = 0%nat
    end.
Proof.
  intros env_inline env_thread config fuel_inline fuel_thread log_inline log_thread
         inline thread.
  (* the inline flow *)
  destruct (handler_forwarding_loop_run env_inline config fuel_inline log_inline)
    as (new & r & Hfw & Hrun).
  destruct (handle_calls _ _ _ _ _ _ Hfw) as (tail & Htail & Hcalls).
  rewrite calls_app, <- app_assoc in Hcalls.
  apply calls_events_of in Hcalls. fold inline in Hcalls.
  pose proof (loop_run_no_teardown _ remote _ _ (write_of_writes _ _ remote) _ _ Hrun)
    as Hquiet.
  (* the flow of the thread *)
  destruct (thread_forwarding_loop_run env_thread remote session config
              fuel_thread log_thread) as (new' & r' & Hfw' & Hrun').
  pose proof (run_cases _ _ _ _ _ _ _ _ Hfw') as Hcases.
  fold (MITMHandler.forwarding_thread_run env_thread config fuel_thread) in Hcases.
  pose proof (loop_run_no_teardown _ session _ _ (write_of_writes _ _ session) _ _ Hrun')
    as Hquiet'.
  pose proof (print_exc_calls_no_teardown config) as Hprint.
  assert (Hthread :
            calls thread
            = calls new'
              ++ match r' with
                 | Ok _ => [bye session; shutdown session; close session]
                 | Raise _ => print_exc_calls config ++ [shutdown session; close session]
                 | OutOfFuel => []
                 end).
  { apply calls_events_of. destruct r' as [[]|e|].
    - rewrite Hcases, calls_app, <- app_assoc. reflexivity.
    - rewrite Hcases, calls_app, <- app_assoc. reflexivity.
    - rewrite Hcases. simpl. rewrite calls_app, app_nil_r. reflexivity. }
  rewrite Hfw, Hfw'. simpl fst. unfold closes_of. rewrite Hcalls, Hthread.
  rewrite !filter_app, !length_app.
  rewrite (no_teardown_no_close session _ Hquiet), (no_teardown_no_close remote _ Hquiet).
  rewrite (no_teardown_no_close session _ Hquiet'), (no_teardown_no_close remote _ Hquiet').
  repeat split.
  - destruct Htail as [-> | ->]; destruct r as [[]|[e|message|message]|]; reflexivity.
  - destruct r' as [[]|e|]; try reflexivity.
    rewrite filter_app, (no_teardown_no_close remote _ Hprint). reflexivity.
  - destruct r' as [[]|e|]; try reflexivity.
    rewrite filter_app, (no_teardown_no_close session _ Hprint). reflexivity.
  - destruct Htail as [-> | ->]; destruct r as [[]|[e|message|message]|]; reflexivity.
Qed.

(** ** Exceptions that are not wrapped *)

(** C10. In the inline flow only a [GNUTLSError] is wrapped: a [ReaderError]
    or [WriterError] out of the loop always comes from a [GNUTLSError] of the
    read or of the write.  If the source read or the destination write raises
    an exception of another class, the loop ends there and [handle] raises that
    very exception: it is neither a [ReaderError] nor a [WriterError], and
    [handle] issues no close-notify, shutdown or close on either endpoint. *)
Theorem handle_other_exception_unwrapped :
  forall (env : Env) (config : MITMSettings.t) (fuel : nat) (log : list event)
         (r : result unit) (l1 : list event),
    MITMHandler.forwarding env config fuel log = (r, l1) ->
    (forall message, r = Raise (ReaderError message) ->
       exists pre,
         l1 = log ++ pre ++ [Ev (recv session (MITMSettings.buffer_size config))
                               (Raises (GNUTLSError message))]) /\
    (forall message, r = Raise (WriterError message) ->
       exists pre c,
         is_write_to remote c = true /\
         l1 = log ++ pre ++ [Ev c (Raises (GNUTLSError message))]) /\
    (forall pre c cls message post,
        l1 = log ++ pre ++ Ev c (Raises (PyException cls message)) :: post ->
        let e := Lib (PyException cls message) in
        (is_read_from session c = true \/ is_write_to remote c = true) /\
        post = [] /\
        is_ReaderError e = false /\ is_WriterError e = false /\
        MITMHandler.handle env config fuel log = (Raise e, l1) /\
        Forall (fun c => is_teardown c = false)
               (calls (events_of (MITMHandler.handle env config fuel) log))).
Proof.
  intros env config fuel log r l1 Hfw.
  destruct (handler_forwarding_loop_run env config fuel log) as (new & r' & Hfw' & Hrun).
  rewrite Hfw in Hfw'. inversion Hfw'; subst r' l1. clear Hfw'.
  pose proof (loop_run_ends _ _ _ _ _ Hrun) as Hends.
  split; [|split].
  - intros message ->. destruct Hends as (pre & ->). eauto.
  - intros message ->. destruct Hends as (pre & data & _ & ->).
    exists pre. eexists. split; [apply write_of_writes | reflexivity].
  - intros pre c cls message post E e. apply app_inv_head in E.
    destruct (loop_run_failure _ remote _ _ (write_of_writes _ _ remote) _ _ Hrun
                _ _ _ _ E) as [-> Hr].
    simpl in Hr. subst r.
    pose proof (handle_cases _ _ _ _ _ _ Hfw) as Hh. simpl in Hh.
    split.
    { pose proof (loop_run_transfers _ remote _ _ (write_of_writes _ _ remote) _ _ Hrun)
        as Ht.
      rewrite E, calls_app in Ht. apply Forall_app in Ht. destruct Ht as [_ Ht].
      inversion Ht as [|? ? Hc _]; subst. simpl in Hc.
      apply orb_true_iff in Hc. exact Hc. }
    repeat split; auto.
    assert (Hc : calls (snd (MITMHandler.handle env config fuel log))
                 = calls log ++ calls new)
      by (rewrite Hh; apply calls_app).
    rewrite (calls_events_of _ _ _ Hc).
    exact (loop_run_no_teardown _ remote _ _ (write_of_writes _ _ remote) _ _ Hrun).
Qed.

(** A read of the near endpoint that raises [MemoryError]. *)
Lemma handle_other_exception_unwrapped_witness :
  MITMHandler.handle near_read_raises example_config 1 []
  = (Raise (Lib (PyException "MemoryError" "")),
     [Ev (recv session 4096) (Raises (PyException "MemoryError" ""))]) /\
  Forall (fun c => is_teardown c = false)
         (calls (events_of (MITMHandler.handle near_read_raises example_config 1) [])).
Proof.
  destruct (handle_other_exception_unwrapped near_read_raises example_config 1 []
              (Raise (Lib (PyException "MemoryError" "")))
              [Ev (recv session 4096) (Raises (PyException "MemoryError" ""))]
              eq_refl) as (_ & _ & H).
  destruct (H [] (recv session 4096) "MemoryError" "" [] eq_refl)
    as (_ & _ & _ & _ & Hh & Hq).
  split; [exact Hh | exact Hq].
Defined.

(** ** Teardown is best-effort, up to [close] *)

(** C6, as stated, fails for the closing helpers: they guard [shutdown] but
    call [close] outside the guard, so a failure of [close] is raised. *)
Lemma close_helpers_raise :
  MITMHandler.close_remote close_fails []
  = (Raise (Lib (PyException "socket.error" "Bad file descriptor")),
     [Ev (shutdown remote) (Returns VNone);
      Ev (close remote) (Raises (PyException "socket.error" "Bad file descriptor"))]) /\
  ForwardingThread.close_dst close_fails session []
  = (Raise (Lib (PyException "socket.error" "Bad file descriptor")),
     [Ev (shutdown session) (Returns VNone);
      Ev (close session) (Raises (PyException "socket.error" "Bad file descriptor"))]).
Proof. split; reflexivity. Qed.

(** C6 (amended).  Whatever the primitives do and whatever was done before
    (the peer gone, the helper already run), the close-notify helpers
    [say_bye_to_remote], [say_bye_to_origin] and [say_bye_to_dst] never
    raise, also when run twice in a row, and [close_remote] and [close_dst]
    never raise a failure of [shutdown]: they always go on to [close], and
    they raise exactly when [close] raises, with the exception of [close]. *)
Theorem teardown_helpers_best_effort :
  forall (env : Env) (dst : endpoint) (log : list event),
    fst (MITMHandler.say_bye_to_remote env log) = Ok tt /\
    fst (MITMHandler.say_bye_to_origin env log) = Ok tt /\
    fst (ForwardingThread.say_bye_to_dst env dst log) = Ok tt /\
    fst ((MITMHandler.say_bye_to_remote env ;; MITMHandler.say_bye_to_remote env) log)
    = Ok tt /\
    (exists o,
        calls (snd (MITMHandler.close_remote env log))
        = calls log ++ [shutdown remote; close remote] /\
        fst (MITMHandler.close_remote env log)
        = match env_unit env (log ++ [Ev (shutdown remote) o]) (close remote) with
          | Return _ => Ok tt
          | Throw e => Raise (Lib e)
          end) /\
    (exists o,
        calls (snd (ForwardingThread.close_dst env dst log))
        = calls log ++ [shutdown dst; close dst] /\
        fst (ForwardingThread.close_dst env dst log)
        = match env_unit env (log ++ [Ev (shutdown dst) o]) (close dst) with
          | Return _ => Ok tt
          | Throw e => Raise (Lib e)
          end).
Proof.
  intros env dst log.
  destruct (say_bye_to_remote_returns env log) as (o1 & H1).
  destruct (say_bye_to_origin_returns env log) as (o2 & H2).
  destruct (say_bye_to_dst_returns env dst log) as (o3 & H3).
  destruct (say_bye_to_remote_returns env (log ++ [Ev (bye remote) o1])) as (o4 & H4).
  rewrite H1, H2, H3. unfold bind at 1. rewrite H1, H4.
  repeat split.
  - destruct (shutdown_close_cases env remote log) as (o & [[E H]|(e & E & H)]);
      exists o; (split; [apply shutdown_close_calls|]);
      unfold MITMHandler.close_remote; rewrite H, E; reflexivity.
  - destruct (shutdown_close_cases env dst log) as (o & [[E H]|(e & E & H)]);
      exists o; (split; [apply shutdown_close_calls|]);
      unfold ForwardingThread.close_dst; rewrite H, E; reflexivity.
Qed.

(** ** Session establishment: [MITMHandler.setup] *)

Lemma setup_split env config log :
  MITMHandler.setup env config log = (near_steps env config ;; far_steps env config) log.
Proof.
  unfold MITMHandler.setup, near_steps, far_steps, bind.
  destruct (MITMHandler.handshake_with_client env log) as [[[]| |] l1]; try reflexivity.
  destruct ((if MITMSettings.verify_client_identity config
             then MITMHandler.verify_client_identity env else ret tt) l1)
    as [[[]| |] l2]; reflexivity.
Qed.

(** Runs every call of a straight-line computation through both answers of
    the environment. *)
Ltac answer_calls :=
  repeat (simpl;
          match goal with
          | |- context [env_unit ?e ?l ?c] =>
              destruct (env_unit e l c) as [[]|?]
          | |- context [env_bool ?e ?l ?c] =>
              destruct (env_bool e l c) as [[|]|?]
          end);
  simpl.

Ltac concrete_log :=
  rewrite <- ?app_assoc; simpl; eexists _, _; split; [reflexivity|].

Ltac list_facts :=
  repeat match goal with
         | |- _ /\ _ => split
         | |- Forall _ (_ :: _) => apply Forall_cons
         | |- Forall _ [] => apply Forall_nil
         | |- Forall _ (calls _) => unfold calls; simpl map
         | |- false = true -> _ => discriminate
         | |- true = true -> _ => intros _
         | |- In _ _ => simpl; tauto
         | |- _ => reflexivity || exact I
         end.

Lemma near_steps_cases env config log :
  exists r new,
    near_steps env config log = (r, log ++ new) /\
    Forall (fun c => creates_far c = false) (calls new) /\
    Forall (fun c => is_teardown c = false) (calls new) /\
    match r with
    | Ok _ => near_completed config new
    | Raise _ => True
    | OutOfFuel => False
    end.
Proof.
  unfold near_steps, near_completed, MITMHandler.handshake_with_client,
    MITMHandler.verify_client_identity, bind, call_unit, call_bool, raise, ret.
  destruct (MITMSettings.verify_client_identity config),
           (MITMSettings.use_length_hiding_with_client config);
    answer_calls; concrete_log; rewrite ?app_nil_r; list_facts;
    try discriminate.
Qed.

Lemma far_steps_cases env config log :
  exists r new,
    far_steps env config log = (r, log ++ new) /\
    Forall (fun ev => near_step_failed ev = false) new /\
    Forall (fun c => is_teardown c = false) (calls new).
Proof.
  unfold far_steps, MITMHandler.build_server_connection,
    MITMHandler.verify_server_identity, MITMHandler.start_forwarding_thread,
    bind, call_unit, call_bool, emit, raise, ret.
  destruct (is_ipv6_address (MITMSettings.server_address config)),
           (MITMSettings.proxy config) as [descriptor|],
           (MITMSettings.verify_server_identity config),
           (MITMSettings.use_length_hiding_with_server config);
    answer_calls; concrete_log; rewrite ?app_nil_r; list_facts.
Qed.

(** The events of [setup]: those of the near steps, followed, when the near
    steps all succeeded, by those of the far steps. *)
Lemma setup_events env config log :
  exists r near far,
    MITMHandler.setup env config log = (r, log ++ near ++ far) /\
    Forall (fun c => creates_far c = false) (calls near) /\
    Forall (fun c => is_teardown c = false) (calls (near ++ far)) /\
    Forall (fun ev => near_step_failed ev = false) far /\
    ((near_completed config near) \/
     (far = [] /\ exists e, r = Raise e)).
Proof.
  rewrite setup_split. unfold bind.
  destruct (near_steps_cases env config log) as (r1 & near & -> & Hfar & Hquiet & Hr1).
  destruct r1 as [[]|e|]; [|clear Hr1|contradiction].
  - destruct (far_steps_cases env config (log ++ near)) as (r & far & -> & Hnear & Hquiet').
    exists r, near, far. rewrite <- app_assoc. repeat split; auto.
    rewrite calls_app. apply Forall_app. auto.
  - exists (Raise e), near, []. rewrite app_nil_r. repeat split; eauto.
Qed.

Lemma Forall_false_In {A} (f : A -> bool) (l : list A) (x : A) :
  Forall (fun y => f y = false) l -> In x l -> f x = true -> False.
Proof.
  intros H Hin Hx. rewrite Forall_forall in H. specialize (H x Hin). congruence.
Qed.

(** C5. In every run of [setup], whatever precedes the creation of the far
    endpoint contains the completed handshake of the near endpoint, its peer
    verification when [verify_client_identity] is set and its positive
    length-hiding check when [use_length_hiding_with_client] is set, and no
    failed step on the near endpoint; and when a step on the near endpoint
    fails, [setup] raises and no far endpoint is created at all. *)
Theorem setup_far_after_near :
  forall (env : Env) (config : MITMSettings.t) (log : list event),
    let evs := events_of (MITMHandler.setup env config) log in
    (forall pre c o post,
        evs = pre ++ Ev c o :: post ->
        creates_far c = true ->
        In (Ev (handshake session) (Returns VNone)) pre /\
        (MITMSettings.verify_client_identity config = true ->
         In (Ev (verify_peer session) (Returns VNone)) pre /\
         In (Ev (check_certificate session) (Returns VNone)) pre) /\
        (MITMSettings.use_length_hiding_with_client config = true ->
         In (Ev (can_use_length_hiding session) (Returns (VBool true))) pre) /\
        Forall (fun ev => near_step_failed ev = false) pre) /\
    (forall ev,
        In ev evs ->
        near_step_failed ev = true ->
        (exists e, fst (MITMHandler.setup env config log) = Raise e) /\
        Forall (fun c => creates_far c = false) (calls evs)).
Proof.
  intros env config log evs.
  destruct (setup_events env config log)
    as (r & near & far & Hsetup & Hfar & _ & Hnear & Hcases).
  assert (Hevs : evs = near ++ far) by (apply (events_of_app _ _ _ _ Hsetup)).
  rewrite Hevs. split.
  - intros pre c o post E Hc.
    assert (Hnotin : ~ In (Ev c o) near).
    { intros Hin. apply (in_map ev_call) in Hin.
      exact (Forall_false_In creates_far _ _ Hfar Hin Hc). }
    assert (Hpre : exists l, pre = near ++ l /\ far = l ++ Ev c o :: post).
    { apply app_eq_app in E. destruct E as (l & [[E1 E2]|[E1 E2]]).
      - destruct l as [|x l].
        + exists []. rewrite app_nil_r in E1. simpl in E2. subst. rewrite app_nil_r. auto.
        + exfalso. inversion E2; subst. apply Hnotin, in_or_app. right. left. reflexivity.
      - exists l. auto. }
    destruct Hpre as (l & -> & Efar).
    destruct Hcases as [(Hh & Hv & Hl & Hok)|[-> _]];
      [|destruct l; discriminate Efar].
    split; [apply in_or_app; auto|].
    split; [intros Hf; destruct (Hv Hf); split; apply in_or_app; auto|].
    split; [intros Hf; apply in_or_app; auto|].
    apply Forall_app. split; [exact Hok|].
    rewrite Efar in Hnear. apply Forall_app in Hnear. tauto.
  - intros ev Hin Hfailed.
    destruct Hcases as [(_ & _ & _ & Hok)|[-> (e & ->)]].
    + exfalso. apply in_app_or in Hin. destruct Hin as [Hin|Hin].
      * exact (Forall_false_In near_step_failed _ _ Hok Hin Hfailed).
      * exact (Forall_false_In near_step_failed _ _ Hnear Hin Hfailed).
    + rewrite Hsetup, app_nil_r. split; [exists e; reflexivity | exact Hfar].
Qed.

(** A run in which everything succeeds, and one in which the handshake with
    the client fails. *)
Lemma setup_far_after_near_witness :
  In (Ev (handshake session) (Returns VNone))
     [Ev LengthHidingServerSession (Returns VNone);
      Ev (handshake session) (Returns VNone);
      Ev (socket_builder false AF_INET) (Returns VNone)] /\
  (exists e, fst (MITMHandler.setup near_handshake_fails example_config []) = Raise e) /\
  Forall (fun c => creates_far c = false)
         (calls (events_of (MITMHandler.setup near_handshake_fails example_config) [])).
Proof.
  split.
  - destruct (setup_far_after_near quiet example_config []) as [H _].
    destruct (H [Ev LengthHidingServerSession (Returns VNone);
                 Ev (handshake session) (Returns VNone);
                 Ev (socket_builder false AF_INET) (Returns VNone)]
                (LengthHidingClientSession "example.org") (Returns VNone)
                [Ev (connect remote ("example.org", [443])) (Returns VNone);
                 Ev (handshake remote) (Returns VNone);
                 Ev forwarding_thread_start (Returns VNone)]
                eq_refl eq_refl) as [Hh _].
    exact Hh.
  - destruct (setup_far_after_near near_handshake_fails example_config []) as [_ H].
    exact (H (Ev (handshake session) (Raises (GNUTLSError "handshake failed")))
             (or_intror (or_introl eq_refl)) eq_refl).
Defined.

(** C7, as stated, fails: [setup] has no cleanup.  When the handshake with
    the destination fails the far endpoint exists, the exception leaves
    [setup], and neither endpoint has been shut down or closed. *)
Lemma setup_abort_releases_nothing :
  MITMHandler.setup far_handshake_fails example_config []
  = (Raise (Lib (GNUTLSError "handshake failed")),
     [Ev LengthHidingServerSession (Returns VNone);
      Ev (handshake session) (Returns VNone);
      Ev (socket_builder false AF_INET) (Returns VNone);
      Ev (LengthHidingClientSession "example.org") (Returns VNone);
      Ev (connect remote ("example.org", [443])) (Returns VNone);
      Ev (handshake remote) (Raises (GNUTLSError "handshake failed"))]) /\
  forallb (fun c => negb (is_teardown c))
          (calls (snd (MITMHandler.setup far_handshake_fails example_config [])))
  = true.
Proof. split; reflexivity. Qed.

(** C7 (amended).  [setup] releases nothing itself: in every run, aborted in
    whatever state or not, it issues no close-notify, shutdown or close on
    either endpoint; an abort only raises the exception to the caller. *)
Theorem setup_issues_no_release :
  forall (env : Env) (config : MITMSettings.t) (log : list event),
    Forall (fun c => is_teardown c = false)
           (calls (events_of (MITMHandler.setup env config) log)) /\
    (fst (MITMHandler.setup env config log) <> Ok tt ->
     exists e, fst (MITMHandler.setup env config log) = Raise e).
Proof.
  intros env config log.
  destruct (setup_events env config log) as (r & near & far & Hsetup & _ & Hquiet & _ & _).
  rewrite (events_of_app _ _ _ _ Hsetup). split; [exact Hquiet|].
  rewrite Hsetup. simpl.
  clear Hquiet. revert Hsetup.
  rewrite setup_split. unfold bind.
  destruct (near_steps_cases env config log) as (r1 & near1 & -> & _ & _ & Hr1).
  destruct r1 as [[]|e|]; [|intros H; inversion H; eauto|contradiction].
  unfold far_steps, MITMHandler.build_server_connection,
    MITMHandler.verify_server_identity, MITMHandler.start_forwarding_thread,
    bind, call_unit, call_bool, emit, raise, ret.
  destruct (is_ipv6_address (MITMSettings.server_address config)),
           (MITMSettings.proxy config) as [descriptor|],
           (MITMSettings.verify_server_identity config),
           (MITMSettings.use_length_hiding_with_server config);
    answer_calls; intros H; inversion H; subst; intros Hr;
    solve [eauto | exfalso; apply Hr; reflexivity].
Qed.

(** The abort after the far endpoint was created. *)
Lemma setup_issues_no_release_witness :
  fst (MITMHandler.setup far_handshake_fails example_config []) <> Ok tt /\
  exists e, fst (MITMHandler.setup far_handshake_fails example_config []) = Raise e.
Proof.
  assert (H : fst (MITMHandler.setup far_handshake_fails example_config []) <> Ok tt)
    by (vm_compute; discriminate).
  split; [exact H|].
  exact (proj2 (setup_issues_no_release far_handshake_fails example_config []) H).
Defined.

(** ** Startup: one listener per configured relay *)

Lemma init_cases env config log :
  exists new,
    attempts (calls new) = 1%nat /\
    reports (calls new) = 0%nat /\
    started_keys (calls new) = [] /\
    (MITMServer.init env config log = (Ok (server_of config), log ++ new) \/
     exists e, MITMServer.init env config log = (Raise e, log ++ new)).
Proof.
  unfold MITMServer.init, server_of, bind, call_unit, ret.
  answer_calls; rewrite <- ?app_assoc; simpl; eexists;
    (split; [|split; [|split; [|first [left; reflexivity | right; eexists; reflexivity]]]]);
    reflexivity.
Qed.

Lemma attempts_app cs cs' : attempts (cs ++ cs') = (attempts cs + attempts cs')%nat.
Proof. unfold attempts. now rewrite filter_app, length_app. Qed.

Lemma reports_app cs cs' : reports (cs ++ cs') = (reports cs + reports cs')%nat.
Proof. unfold reports. now rewrite filter_app, length_app. Qed.

Lemma started_keys_app cs cs' : started_keys (cs ++ cs') = started_keys cs ++ started_keys cs'.
Proof. apply flat_map_app. Qed.

Lemma make_config_cases {V} (default_settings setting : @dict V) :
  (has_addresses setting = true /\
   exists config, make_config default_settings setting = Ok config) \/
  (has_addresses setting = false /\
   exists k, make_config default_settings setting = Raise (Lib (PyException "KeyError" k))).
Proof.
  unfold has_addresses, make_config, and_then, getitem.
  destruct (lookup setting "server_address"); destruct (lookup setting "listen_address");
    eauto.
Qed.

(** What [MITMServer.__init__] raises is what one of its construction calls
    has raised. *)
Lemma init_raises_library env config log e l :
  MITMServer.init env config log = (Raise e, l) ->
  exists h c e', is_construction c = true /\ env_unit env h c = Throw e' /\ e = Lib e'.
Proof.
  unfold MITMServer.init, bind, call_unit, ret.
  destruct (env_unit env log (TLSContext as_server)) as [[]|e1] eqn:E1.
  - destruct (env_unit env (log ++ [Ev (TLSContext as_server) (Returns VNone)])
                (TLSContext as_client)) as [[]|e2] eqn:E2.
    + match goal with
      | |- context [env_unit env ?h (ThreadingTCPServer_init ?a ?f)] =>
          destruct (env_unit env h (ThreadingTCPServer_init a f)) as [[]|e3] eqn:E3
      end.
      * intros H. discriminate H.
      * intros H. inversion H; subst. eexists _, _, _.
        split; [|split; [exact E3 | reflexivity]]. reflexivity.
    + intros H. inversion H; subst. eexists _, _, _.
      split; [|split; [exact E2 | reflexivity]]. reflexivity.
  - intros H. inversion H; subst. eexists _, _, _.
    split; [|split; [exact E1 | reflexivity]]. reflexivity.
Qed.

Section Startup.
Context {V : Type}.
Variable env : Env.
Variable attributes_of : @dict V -> MITMSettings.t.
Variable default_settings : @dict V.

(** The loop over a list of settings in two parts. *)
Lemma start_servers_app : forall done rest servers log,
  start_servers env attributes_of default_settings (done ++ rest) servers log
  = (servers' <- start_servers env attributes_of default_settings done servers ;; start_servers env attributes_of default_settings rest servers') log.
Proof.
  induction done as [|[key setting] done IH]; intros rest servers log.
  - reflexivity.
  - unfold bind. cbn [start_servers app]. cbv beta.
    destruct (make_config default_settings setting) as [config| |]; try reflexivity.
    destruct (MITMServer.init env (attributes_of config) log) as [[server|e|] l'];
      try reflexivity.
    + unfold bind, emit. rewrite IH. reflexivity.
    + destruct (is_Exception e); [|reflexivity].
      unfold bind, emit. rewrite IH. reflexivity.
Qed.

(** The servers that a finished loop returns are those whose serving thread
    it has started. *)
Lemma start_servers_keys : forall settings servers log all l,
  start_servers env attributes_of default_settings settings servers log = (Ok all, l) ->
  exists built new,
    all = servers ++ built /\ l = log ++ new /\
    started_keys (calls new) = map fst built.
Proof.
  induction settings as [|[key setting] settings IH]; intros servers log all l H;
    simpl in H.
  - inversion H; subst. exists [], []. rewrite !app_nil_r. auto.
  - destruct (make_config default_settings setting) as [config| |]; try discriminate H.
    destruct (init_cases env (attributes_of config) log)
      as (new1 & _ & _ & Hk & [E|(e & E)]); rewrite E in H.
    + unfold bind, emit in H. apply IH in H.
      destruct H as (built & new & -> & -> & Hk').
      exists ((key, server_of (attributes_of config)) :: built). eexists.
      rewrite <- !app_assoc. simpl. split; [reflexivity|]. split; [reflexivity|].
      rewrite !calls_app, !started_keys_app, Hk. simpl. f_equal. exact Hk'.
    + destruct (is_Exception e); [|discriminate H].
      unfold bind, emit in H. apply IH in H.
      destruct H as (built & new & -> & -> & Hk').
      exists built. eexists.
      rewrite <- !app_assoc. simpl. split; [reflexivity|]. split; [reflexivity|].
      rewrite !calls_app, !started_keys_app, Hk. simpl. exact Hk'.
Qed.

Hypothesis construction_raises : raises_exceptions_only env.

Lemma init_raises_Exception config log e l :
  MITMServer.init env config log = (Raise e, l) -> is_Exception e = true.
Proof.
  intros H. destruct (init_raises_library _ _ _ _ _ H) as (h & c & e' & Hc & Hthrow & ->).
  exact (construction_raises _ _ _ Hc Hthrow).
Qed.

(** With settings that have their addresses the loop never stops early: every
    relay is attempted, and each one is either started or reported. *)
Lemma start_servers_total : forall settings servers log,
  forallb has_addresses (map snd settings) = true ->
  exists built new,
    start_servers env attributes_of default_settings settings servers log = (Ok (servers ++ built), log ++ new) /\
    attempts (calls new) = List.length settings /\
    (List.length built + reports (calls new) = List.length settings)%nat /\
    started_keys (calls new) = map fst built.
Proof.
  induction settings as [|[key setting] settings IH]; intros servers log Hwf; simpl.
  - exists [], []. rewrite !app_nil_r. auto.
  - simpl in Hwf. apply andb_true_iff in Hwf. destruct Hwf as [Hs Hwf].
    destruct (make_config_cases default_settings setting)
      as [[_ (config & ->)]|[Hf _]]; [|congruence].
    destruct (init_cases env (attributes_of config) log)
      as (new1 & Ha & Hr & Hk & [E|(e & E)]); rewrite E.
    + unfold bind, emit.
      match goal with
      | |- context [start_servers env attributes_of default_settings settings ?s ?l] =>
          destruct (IH s l Hwf) as (built & new & -> & Ha' & Hr' & Hk')
      end.
      exists ((key, server_of (attributes_of config)) :: built). eexists.
      rewrite <- !app_assoc. simpl. split; [reflexivity|].
      rewrite !calls_app, !attempts_app, !reports_app, !started_keys_app, Ha, Hr, Hk.
      unfold attempts, reports in *. simpl.
      split; [lia|]. split; [lia|]. f_equal. exact Hk'.
    + rewrite (init_raises_Exception _ _ _ _ E).
      unfold bind, emit.
      match goal with
      | |- context [start_servers env attributes_of default_settings settings ?s ?l] =>
          destruct (IH s l Hwf) as (built & new & -> & Ha' & Hr' & Hk')
      end.
      exists built. eexists.
      rewrite <- !app_assoc. simpl. split; [reflexivity|].
      rewrite !calls_app, !attempts_app, !reports_app, !started_keys_app, Ha, Hr, Hk.
      unfold attempts, reports in *. simpl.
      split; [lia|]. split; [lia|]. exact Hk'.
Qed.

(** At the first setting without its addresses the loop is left with the
    [KeyError]: nothing is attempted for that relay or after it. *)
Lemma start_servers_KeyError : forall done key setting rest log,
  forallb has_addresses (map snd done) = true ->
  has_addresses setting = false ->
  exists k built new,
    start_servers env attributes_of default_settings (done ++ (key, setting) :: rest) [] log
    = (Raise (Lib (PyException "KeyError" k)), log ++ new) /\
    start_servers env attributes_of default_settings done [] log = (Ok built, log ++ new) /\
    attempts (calls new) = List.length done /\
    started_keys (calls new) = map fst built.
Proof.
  intros done key setting rest log Hwf Hbad.
  destruct (start_servers_total done [] log Hwf) as (built & new & H & Ha & _ & Hk).
  destruct (make_config_cases default_settings setting)
    as [[Hg _]|[_ (k & Hmake)]]; [congruence|].
  exists k, built, new. rewrite start_servers_app. unfold bind. rewrite H.
  simpl. rewrite Hmake. auto.
Qed.

Lemma init_independent config h :
  construction_independent env ->
  fst (MITMServer.init env config h) = fst (MITMServer.init env config []).
Proof.
  intros Hind. unfold MITMServer.init, bind, call_unit, ret.
  rewrite (Hind h [] (TLSContext as_server) eq_refl).
  destruct (env_unit env [] (TLSContext as_server)) as [[]|e]; [|reflexivity].
  rewrite (Hind (h ++ [Ev (TLSContext as_server) (Returns VNone)])
             ([] ++ [Ev (TLSContext as_server) (Returns VNone)])
             (TLSContext as_client) eq_refl).
  destruct (env_unit env _ (TLSContext as_client)) as [[]|e]; [|reflexivity].
  match goal with
  | |- context [env_unit env ?l (ThreadingTCPServer_init ?a ?f)] =>
      rewrite (Hind l
                 (([] ++ [Ev (TLSContext as_server) (Returns VNone)])
                    ++ [Ev (TLSContext as_client) (Returns VNone)])
                 (ThreadingTCPServer_init a f) eq_refl)
  end.
  destruct (env_unit env _ (ThreadingTCPServer_init _ _)) as [[]|e]; reflexivity.
Qed.


Lemma start_servers_independent :
  construction_independent env ->
  forall settings servers log,
    forallb has_addresses (map snd settings) = true ->
    fst (start_servers env attributes_of default_settings settings servers log)
    = Ok (servers
            ++ map listener_of
                 (filter (constructs env)
                         (map (entry_of attributes_of default_settings) settings))).
Proof.
  intros Hind. induction settings as [|[key setting] settings IH];
    intros servers log Hwf; simpl.
  - now rewrite app_nil_r.
  - simpl in Hwf. apply andb_true_iff in Hwf. destruct Hwf as [Hs Hwf].
    destruct (make_config_cases default_settings setting)
      as [[_ (config & Hmake)]|[Hf _]]; [|congruence].
    assert (Hentry : entry_of attributes_of default_settings (key, setting)
                     = (key, attributes_of config))
      by (unfold entry_of; simpl; rewrite Hmake; reflexivity).
    rewrite Hentry, Hmake.
    pose proof (init_independent (attributes_of config) log Hind) as Hfst.
    unfold constructs at 1. simpl snd.
    destruct (init_cases env (attributes_of config) log)
      as (new1 & _ & _ & _ & [H|(e & H)]);
      rewrite H in *; simpl in Hfst; rewrite <- Hfst.
    + unfold bind, emit. rewrite (IH _ _ Hwf), <- app_assoc. reflexivity.
    + rewrite (init_raises_Exception _ _ _ _ H).
      unfold bind, emit. rewrite (IH _ _ Hwf). reflexivity.
Qed.
End Startup.

Lemma Permutation_filter {A} (f : A -> bool) (l l' : list A) :
  Permutation l l' -> Permutation (filter f l) (filter f l').
Proof.
  induction 1 as [|x l l' _ IH|x y l|l l' l'' _ IH1 _ IH2]; simpl.
  - constructor.
  - destruct (f x); [constructor|]; exact IH.
  - destruct (f x), (f y); try reflexivity. constructor.
  - now transitivity (filter f l').
Qed.




Example main_three_relays :
  fst (main bad_address_fails example_attributes [] three_relays [])
  = Ok (serving [("a", server_of (listening_on "127.0.0.1"));
                 ("c", server_of (listening_on "[::1]"))]) /\
  started_keys (calls (snd (main bad_address_fails example_attributes [] three_relays [])))
  = ["a"; "c"] /\
  fst (main bad_address_fails example_attributes [] [("b", setting_for "256.0.0.1")] [])
  = Ok (sys_exit 1).
Proof. repeat split; reflexivity. Qed.

(** ** Address families *)

Lemma length_append_one (body : string) (c : ascii) :
  String.length (append body (String c "")) = S (String.length body).
Proof. induction body as [|a body IH]; simpl; [reflexivity | now rewrite IH]. Qed.

Lemma substring_prefix (body rest : string) :
  substring 0 (String.length body) (append body rest) = body.
Proof.
  induction body as [|a body IH]; simpl.
  - destruct rest; reflexivity.
  - now rewrite IH.
Qed.

Lemma startswith_bracket (s : string) :
  startswith s "[" = true <-> exists rest, s = String "[" rest.
Proof.
  unfold startswith. destruct s as [|a s].
  - split; [discriminate | intros (rest & H); discriminate H].
  - change (prefix "[" (String a s)) with (if ascii_dec "[" a then prefix "" s else false).
    destruct (ascii_dec "[" a) as [<-|Hne].
    + split; [eauto | intros _; destruct s; reflexivity].
    + split; [discriminate | intros (rest & H); inversion H; congruence].
Qed.

Lemma endswith_bracket (s : string) :
  endswith s "]" = true <-> exists body, s = append body "]".
Proof.
  unfold endswith. simpl String.length.
  induction s as [|a s IH].
  - simpl. split; [discriminate | intros ([|b body] & H); [discriminate H|]].
    destruct body; discriminate H.
  - destruct s as [|b s].
    + change (String.eqb (String a "") "]" = true <-> exists body, String a "" = append body "]").
      rewrite String.eqb_eq. split.
      * intros H. exists "". exact H.
      * intros ([|c body] & H); simpl in H.
        -- exact H.
        -- inversion H as [[Ha Hb]]. destruct body; discriminate Hb.
    + replace (String.length (String a (String b s)) - 1)%nat
        with (S (String.length (String b s) - 1))%nat by (simpl; lia).
      change (substring (S ?n) 1 (String a ?t)) with (substring n 1 t).
      change ((1 <=? String.length (String a (String b s)))%nat) with true.
      change ((1 <=? String.length (String b s))%nat) with true in IH.
      rewrite IH. split.
      * intros (body & ->). exists (String a body). reflexivity.
      * intros ([|c body] & H); [discriminate H|].
        inversion H. eauto.
Qed.

Lemma is_ipv6_address_brackets (a : address) :
  is_ipv6_address a = true <-> exists body, fst a = String "[" (append body "]").
Proof.
  unfold is_ipv6_address. rewrite andb_true_iff, startswith_bracket, endswith_bracket.
  split.
  - intros [(rest & Hs) ([|c body] & He)]; rewrite Hs in He.
    + discriminate He.
    + inversion He; subst. exists body. exact Hs.
  - intros (body & ->). split; [eauto | exists (String "[" body); reflexivity].
Qed.

Lemma slice_1_m1_brackets (body : string) :
  slice_1_m1 (String "[" (append body "]")) = body.
Proof.
  unfold slice_1_m1. simpl String.length. rewrite length_append_one.
  replace (S (S (String.length body)) - 2)%nat with (String.length body) by lia.
  simpl. apply substring_prefix.
Qed.

Lemma build_server_connection_calls env config log :
  exists r o rest,
    MITMHandler.build_server_connection env config log
    = (r, log ++ Ev (socket_builder (uses_proxy config)
                       (family_of (MITMSettings.server_address config))) o :: rest) /\
    Forall (fun c =>
              match c with
              | connect ep a =>
                  ep = remote /\ a = dialed (MITMSettings.server_address config)
              | socket_builder _ family =>
                  family = family_of (MITMSettings.server_address config)
              | _ => True
              end)
           (calls rest).
Proof.
  unfold MITMHandler.build_server_connection, uses_proxy, family_of, dialed,
    bind, call_unit, ret.
  destruct (is_ipv6_address (MITMSettings.server_address config)),
           (MITMSettings.proxy config) as [descriptor|];
    answer_calls; rewrite <- ?app_assoc; simpl; eexists _, _, _;
    (split; [reflexivity|]); list_facts.
Qed.

Lemma init_calls env config log :
  exists r new,
    MITMServer.init env config log = (r, log ++ new) /\
    match r with
    | Ok server =>
        MITMServer.address_family server
        = family_of (MITMSettings.listen_address config)
    | _ => True
    end /\
    Forall (fun c =>
              match c with
              | ThreadingTCPServer_init a family =>
                  a = MITMSettings.listen_address config /\
                  family = family_of (MITMSettings.listen_address config)
              | _ => True
              end)
           (calls new).
Proof.
  unfold MITMServer.init, family_of, bind, call_unit, ret.
  answer_calls; concrete_log; rewrite ?app_nil_r; list_facts.
Qed.

(** C9. An address is taken for IPv6 exactly when its host string starts with
    an opening and ends with a closing bracket, that is when it is a bracketed
    literal; every other address is taken for IPv4.  When dialing the
    destination the socket is created for the family of the configured
    address, and the connection goes to the address with the brackets
    stripped for IPv6, to the address as it is otherwise.  The listener takes
    its address family from its listen address by the same test. *)
Theorem address_family_by_brackets :
  forall (env : Env) (config : MITMSettings.t) (log : list event),
    let server_address := MITMSettings.server_address config in
    let listen_address := MITMSettings.listen_address config in
    let dialing := events_of (MITMHandler.build_server_connection env config) log in
    let listening := events_of (MITMServer.init env config) log in
    (forall a,
        is_ipv6_address a = (startswith (fst a) "[" && endswith (fst a) "]") /\
        (is_ipv6_address a = true <-> exists body, fst a = String "[" (append body "]")) /\
        family_of a = (if is_ipv6_address a then AF_INET6 else AF_INET)) /\
    (forall body rest, dialed (String "[" (append body "]"), rest) = (body, rest)) /\
    (forall a, is_ipv6_address a = false -> dialed a = a) /\
    (exists o rest,
        dialing = Ev (socket_builder (uses_proxy config) (family_of server_address)) o
                  :: rest) /\
    (forall use_proxy family,
        In (socket_builder use_proxy family) (calls dialing) ->
        family = family_of server_address) /\
    (forall ep a,
        In (connect ep a) (calls dialing) -> ep = remote /\ a = dialed server_address) /\
    (forall a family,
        In (ThreadingTCPServer_init a family) (calls listening) ->
        a = listen_address /\ family = family_of listen_address) /\
    (forall server l,
        MITMServer.init env config log = (Ok server, l) ->
        MITMServer.address_family server = family_of listen_address).
Proof.
  intros env config log server_address listen_address dialing listening.
  destruct (build_server_connection_calls env config log) as (r & o & rest & Hb & Hcalls).
  destruct (init_calls env config log) as (r' & new & Hi & Hfam & Hcalls').
  assert (Hd : dialing = Ev (socket_builder (uses_proxy config) (family_of server_address)) o
                         :: rest) by (apply (events_of_app _ _ _ _ Hb)).
  assert (Hl : listening = new) by (apply (events_of_app _ _ _ _ Hi)).
  rewrite Forall_forall in Hcalls, Hcalls'.
  split; [|split; [|split; [|split; [|split; [|split; [|split]]]]]].
  - intros a. split; [reflexivity|]. split; [apply is_ipv6_address_brackets | reflexivity].
  - intros body rest0. unfold dialed.
    assert (E : is_ipv6_address (String "[" (append body "]"), rest0) = true)
      by (apply is_ipv6_address_brackets; exists body; reflexivity).
    rewrite E. simpl fst. rewrite slice_1_m1_brackets. reflexivity.
  - intros a E. unfold dialed. rewrite E. reflexivity.
  - eauto.
  - intros use_proxy family Hin. rewrite Hd in Hin. destruct Hin as [Hin|Hin].
    + inversion Hin. reflexivity.
    + exact (Hcalls _ Hin).
  - intros ep a Hin. rewrite Hd in Hin. destruct Hin as [Hin|Hin]; [discriminate Hin|].
    exact (Hcalls _ Hin).
  - intros a family Hin. rewrite Hl in Hin. exact (Hcalls' _ Hin).
  - intros server l E. rewrite Hi in E. inversion E; subst. exact Hfam.
Qed.

(** Dialing [[::1]]: an IPv6 socket, connected to [::1]. *)
Lemma address_family_by_brackets_witness :
  In (connect remote ("::1", [443]))
     (calls (events_of (MITMHandler.build_server_connection quiet to_ipv6_loopback) [])) /\
  (remote = remote /\
   ("::1", [443]) = dialed (MITMSettings.server_address to_ipv6_loopback)).
Proof.
  assert (H : In (connect remote ("::1", [443]))
                 (calls (events_of
                           (MITMHandler.build_server_connection quiet to_ipv6_loopback) [])))
    by (vm_compute; tauto).
  split; [exact H|].
  destruct (address_family_by_brackets quiet to_ipv6_loopback [])
    as (_ & _ & _ & _ & _ & Hc & _).
  exact (Hc remote ("::1", [443]) H).
Defined.

(** ** Fuel *)

(** The loop runs out of fuel only when the source has delivered as many
    chunks as there was fuel and every one of them was written. *)
Lemma forward_with_out_of_fuel env src buffer_size write fuel : forall log new,
  forward_with env fuel (connection_reader env src buffer_size) write log
  = (OutOfFuel, log ++ new) ->
  List.length new = (2 * fuel)%nat /\
  Forall (fun ev => exists c v, ev = Ev c (Returns v)) new.
Proof.
  induction fuel as [|fuel IH]; intros log new H; simpl in H.
  - inversion H as [E]. rewrite <- (app_nil_r log) in E at 1.
    apply app_inv_head in E. subst new. split; [reflexivity | constructor].
  - unfold bind at 1 in H.
    destruct (connection_reader_cases env src buffer_size log)
      as [[_ E]|[(data & Hd & _ & E)|[(message & _ & E)|(cls & message & _ & E)]]];
      rewrite E in H; try discriminate H.
    unfold bind, try_except_GNUTLSError, raise in H.
    destruct (call_unit_cases env (write data)
                (log ++ [Ev (recv src buffer_size) (Returns (VStr data))]))
      as [[_ E']|([message|cls message] & _ & E')];
      rewrite E' in H; try discriminate H.
    destruct (forward_with_loop_run env src buffer_size write fuel
                ((log ++ [Ev (recv src buffer_size) (Returns (VStr data))])
                   ++ [Ev (write data) (Returns VNone)]))
      as (new' & r & Hfw & _).
    rewrite Hfw in H. inversion H as [[Hr E'']]. subst r.
    rewrite <- !app_assoc in E''. apply app_inv_head in E''. simpl in E''. subst new.
    destruct (IH _ _ Hfw) as [Hlen Hall].
    split; [simpl; lia|]. repeat constructor; eauto.
Qed.

(** A run of [handle] that has ended is the same with more fuel. *)
Lemma handle_more_fuel env config fuel log r l :
  MITMHandler.handle env config fuel log = (r, l) ->
  r <> OutOfFuel ->
  forall extra, MITMHandler.handle env config (fuel + extra) log = (r, l).
Proof.
  intros H Hr extra. unfold MITMHandler.handle in *.
  destruct (MITMHandler.forwarding env config fuel log) as [r' l'] eqn:E.
  assert (Hr' : r' <> OutOfFuel) by (intros ->; inversion H; congruence).
  assert (E' : MITMHandler.forwarding env config (fuel + extra) log = (r', l')).
  { unfold MITMHandler.forwarding in *.
    destruct (MITMSettings.use_length_hiding_with_server config).
    - rewrite forward_connection_with_padding_forward_with in *.
      now apply forward_with_more_fuel.
    - rewrite forward_connection_forward_with in *.
      now apply forward_with_more_fuel. }
  rewrite E'. exact H.
Qed.

(** And so is a run of the forwarding thread. *)
Lemma run_more_fuel env src dst config fuel log r l :
  ForwardingThread.run env src dst config fuel log = (r, l) ->
  r <> OutOfFuel ->
  forall extra, ForwardingThread.run env src dst config (fuel + extra) log = (r, l).
Proof.
  intros H Hr extra. unfold ForwardingThread.run in *. unfold bind at 1 in H.
  unfold bind at 1.
  destruct (ForwardingThread.forwarding env src dst config fuel log) as [r' l'] eqn:E.
  assert (Hr' : r' <> OutOfFuel) by (intros ->; inversion H; congruence).
  assert (E' : ForwardingThread.forwarding env src dst config (fuel + extra) log = (r', l')).
  { unfold ForwardingThread.forwarding in *.
    destruct (MITMSettings.use_length_hiding_with_client config).
    - rewrite forward_connection_with_padding_forward_with in *.
      now apply forward_with_more_fuel.
    - rewrite forward_connection_forward_with in *.
      now apply forward_with_more_fuel. }
  rewrite E'. exact H.
Qed.

(** ** Runs *)

(** A chunk of nine bytes, no padding: the chunk is written as it is, and the
    end of the stream is followed by the whole teardown. *)
Example handle_one_chunk :
  MITMHandler.handle one_chunk example_config 2 []
  = (Ok tt,
     [Ev (recv session 4096) (Returns (VStr "GET /a/b "));
      Ev (send remote "GET /a/b ") (Returns VNone);
      Ev (recv session 4096) (Returns (VStr ""));
      Ev (bye remote) (Returns VNone);
      Ev (shutdown remote) (Returns VNone);
      Ev (close remote) (Returns VNone);
      Ev (bye session) (Returns VNone)]).
Proof. reflexivity. Qed.

(** The same chunk with the padding range (5, 10): between 14 and 19 bytes on
    the wire. *)
Example handle_one_chunk_padded :
  calls (snd (MITMHandler.forwarding one_chunk padding_5_10 2 []))
  = [recv session 4096; send_range remote "GET /a/b " 5 10; recv session 4096] /\
  len "GET /a/b " + 5 = 14 /\ len "GET /a/b " + 10 = 19.
Proof. repeat split; reflexivity. Qed.

(** The destination resets the connection: the forwarding thread reports the
    error, then shuts down and closes the near endpoint. *)
Example run_far_read_fails :
  calls (snd (MITMHandler.forwarding_thread_run far_read_fails example_config 1 []))
  = [recv remote 4096; print dashes;
     print "Exception happened during processing of request";
     traceback_print_exc; print dashes; shutdown session; close session].
Proof. reflexivity. Qed.

(** * Further properties *)

(** ** Chunks are forwarded verbatim and in order *)

Lemma nonempty_true (data : string) : data <> "" -> nonempty data = true.
Proof.
  intros H. unfold nonempty. destruct (String.eqb_spec data ""); [contradiction | reflexivity].
Qed.

Section ChunkOrder.
Variable src : endpoint.
Variable buffer_size : Z.
Variable write : string -> call.
Hypothesis write_carries :
  forall data,
    (exists ep, write data = send ep data) \/
    (exists ep range_low range_high, write data = send_range ep data range_low range_high).

Lemma written_write data o : written_chunks [Ev (write data) o] = [data].
Proof.
  destruct (write_carries data) as [(ep & ->)|(ep & lo & hi & ->)]; reflexivity.
Qed.

Lemma read_write data o : read_chunks [Ev (write data) o] = [].
Proof.
  destruct (write_carries data) as [(ep & ->)|(ep & lo & hi & ->)]; reflexivity.
Qed.

Lemma delivered_write data v : delivered_chunks [Ev (write data) (Returns v)] = [data].
Proof.
  destruct (write_carries data) as [(ep & ->)|(ep & lo & hi & ->)]; reflexivity.
Qed.

Lemma delivered_failed_write data e : delivered_chunks [Ev (write data) (Raises e)] = [].
Proof.
  destruct (write_carries data) as [(ep & ->)|(ep & lo & hi & ->)]; reflexivity.
Qed.

(** In a run of the loop the writes attempted are the non-empty chunks read,
    in order, and all of them but possibly the last one were delivered. *)
Lemma loop_run_in_order new r :
  loop_run src buffer_size write new r ->
  written_chunks new = filter nonempty (read_chunks new) /\
  (exists failed,
      (failed = [] \/ exists data, failed = [data]) /\
      written_chunks new = delivered_chunks new ++ failed) /\
  (r = Ok tt -> read_chunks new = delivered_chunks new ++ [""]).
Proof.
  induction 1 as [| | message | cls message | data message Hd | data cls message Hd
                  | data rest r Hd Hrun IH].
  - split; [reflexivity|]. split; [exists []; auto | discriminate].
  - split; [reflexivity|]. split; [exists []; auto | reflexivity].
  - split; [reflexivity|]. split; [exists []; auto | discriminate].
  - split; [reflexivity|]. split; [exists []; auto | discriminate].
  - change [Ev (recv src buffer_size) (Returns (VStr data));
            Ev (write data) (Raises (GNUTLSError message))]
      with ([Ev (recv src buffer_size) (Returns (VStr data))]
              ++ [Ev (write data) (Raises (GNUTLSError message))]).
    unfold written_chunks, read_chunks, delivered_chunks. rewrite !flat_map_app.
    fold (written_chunks [Ev (write data) (Raises (GNUTLSError message))]).
    fold (read_chunks [Ev (write data) (Raises (GNUTLSError message))]).
    fold (delivered_chunks [Ev (write data) (Raises (GNUTLSError message))]).
    rewrite written_write, read_write, delivered_failed_write. simpl.
    rewrite (nonempty_true _ Hd).
    split; [reflexivity|]. split; [exists [data]; eauto | discriminate].
  - change [Ev (recv src buffer_size) (Returns (VStr data));
            Ev (write data) (Raises (PyException cls message))]
      with ([Ev (recv src buffer_size) (Returns (VStr data))]
              ++ [Ev (write data) (Raises (PyException cls message))]).
    unfold written_chunks, read_chunks, delivered_chunks. rewrite !flat_map_app.
    fold (written_chunks [Ev (write data) (Raises (PyException cls message))]).
    fold (read_chunks [Ev (write data) (Raises (PyException cls message))]).
    fold (delivered_chunks [Ev (write data) (Raises (PyException cls message))]).
    rewrite written_write, read_write, delivered_failed_write. simpl.
    rewrite (nonempty_true _ Hd).
    split; [reflexivity|]. split; [exists [data]; eauto | discriminate].
  - destruct IH as (Hw & (failed & Hf & Hdel) & Hok).
    change (Ev (recv src buffer_size) (Returns (VStr data))
            :: Ev (write data) (Returns VNone) :: rest)
      with ([Ev (recv src buffer_size) (Returns (VStr data))]
              ++ [Ev (write data) (Returns VNone)] ++ rest).
    unfold written_chunks, read_chunks, delivered_chunks. rewrite !flat_map_app.
    fold (written_chunks [Ev (write data) (Returns VNone)]).
    fold (read_chunks [Ev (write data) (Returns VNone)]).
    fold (delivered_chunks [Ev (write data) (Returns VNone)]).
    fold (written_chunks rest). fold (read_chunks rest). fold (delivered_chunks rest).
    rewrite written_write, read_write, delivered_write. simpl.
    rewrite (nonempty_true _ Hd), Hw.
    split; [reflexivity|]. split.
    + exists failed. split; [exact Hf|]. rewrite <- Hw, Hdel. reflexivity.
    + intros E. rewrite (Hok E). reflexivity.
Qed.
End ChunkOrder.

Lemma plain_write_carries dst data :
  (exists ep, plain_write dst data = send ep data) \/
  (exists ep range_low range_high,
      plain_write dst data = send_range ep data range_low range_high).
Proof. left. exists dst. reflexivity. Qed.

Lemma padded_write_carries dst low high data :
  (exists ep, padded_write dst low high data = send ep data) \/
  (exists ep range_low range_high,
      padded_write dst low high data = send_range ep data range_low range_high).
Proof. right. eexists dst, _, _. reflexivity. Qed.

(** X1. Whether padded or not, a forwarding loop tries to write exactly the
    non-empty chunks it has read, unchanged and in the order read; every
    write but possibly the last one was delivered; and when the loop ends
    with a clean end of stream everything read before the final empty read
    was delivered. *)
Theorem chunks_forwarded_in_order :
  forall (env : Env) (fuel : nat) (src dst : endpoint) (buffer_size low high : Z)
         (log evs : list event) (r : result unit),
    let reader := connection_reader env src buffer_size in
    forward_connection env fuel reader dst log = (r, log ++ evs) \/
    forward_connection_with_padding env fuel reader dst low high log = (r, log ++ evs) ->
    written_chunks evs = filter nonempty (read_chunks evs) /\
    (exists failed,
        (failed = [] \/ exists data, failed = [data]) /\
        written_chunks evs = delivered_chunks evs ++ failed) /\
    (r = Ok tt -> read_chunks evs = delivered_chunks evs ++ [""]).
Proof.
  intros env fuel src dst buffer_size low high log evs r reader [H|H].
  - rewrite forward_connection_forward_with in H.
    destruct (forward_with_loop_run env src buffer_size (plain_write dst) fuel log)
      as (new & r' & H' & Hrun).
    unfold reader in H. rewrite H' in H. inversion H as [[Hr E]].
    apply app_inv_head in E. subst.
    exact (loop_run_in_order _ _ _ (plain_write_carries dst) _ _ Hrun).
  - rewrite forward_connection_with_padding_forward_with in H.
    destruct (forward_with_loop_run env src buffer_size (padded_write dst low high) fuel log)
      as (new & r' & H' & Hrun).
    unfold reader in H. rewrite H' in H. inversion H as [[Hr E]].
    apply app_inv_head in E. subst.
    exact (loop_run_in_order _ _ _ (padded_write_carries dst low high) _ _ Hrun).
Qed.

(** One chunk and the end of the stream. *)
Lemma chunks_forwarded_in_order_witness :
  delivered_chunks
    [Ev (recv session 4096) (Returns (VStr "GET /a/b "));
     Ev (send remote "GET /a/b ") (Returns VNone);
     Ev (recv session 4096) (Returns (VStr ""))] ++ [""]
  = ["GET /a/b "; ""].
Proof.
  destruct (chunks_forwarded_in_order one_chunk 2 session remote 4096 0 0 []
              [Ev (recv session 4096) (Returns (VStr "GET /a/b "));
               Ev (send remote "GET /a/b ") (Returns VNone);
               Ev (recv session 4096) (Returns (VStr ""))]
              (Ok tt) (or_introl eq_refl)) as (_ & _ & H).
  symmetry. exact (H eq_refl).
Defined.

(** ** The clamp of the padding range inside the loop *)

(** X2. [connection_reader] never yields an empty chunk, so every write of
    the padded loop carries at least one byte; the lower bound it passes is
    [max low (1 - L)] with [1 <= L], which is the configured [low] itself as
    soon as [low] is not negative: inside the loop the clamp only ever changes
    a negative lower bound. *)
Theorem padding_clamp_in_loop :
  forall (env : Env) (fuel : nat) (src dst : endpoint) (buffer_size low high : Z)
         (log : list event),
    let evs :=
      events_of (forward_connection_with_padding env fuel
                   (connection_reader env src buffer_size) dst low high) log in
    Forall (fun c => c = recv src buffer_size \/
                     exists data,
                       1 <= len data /\
                       c = send_range dst data (Z.max low (1 - len data)) high)
           (calls evs) /\
    (0 <= low ->
     Forall (fun c => c = recv src buffer_size \/
                      exists data, data <> "" /\ c = send_range dst data low high)
            (calls evs)).
Proof.
  intros env fuel src dst buffer_size low high log evs.
  unfold evs. clear evs.
  rewrite forward_connection_with_padding_forward_with.
  destruct (forward_with_loop_run env src buffer_size (padded_write dst low high) fuel log)
    as (new & r & H & Hrun).
  rewrite (events_of_app _ _ _ _ H).
  apply loop_run_calls in Hrun.
  assert (Hlen : forall data, data <> "" -> 1 <= len data).
  { intros data Hd. unfold len. destruct data; [congruence | simpl; lia]. }
  split.
  - eapply Forall_impl; [|exact Hrun].
    intros c [->|(data & Hd & ->)]; [left; reflexivity | right].
    exists data. split; [apply Hlen, Hd | reflexivity].
  - intros Hlow. eapply Forall_impl; [|exact Hrun].
    intros c [->|(data & Hd & ->)]; [left; reflexivity | right].
    exists data. split; [exact Hd|].
    unfold padded_write. pose proof (Hlen data Hd). f_equal. lia.
Qed.

(** The range (5, 10) reaches [send_range] as it is. *)
Lemma padding_clamp_in_loop_witness :
  0 <= 5 /\
  Forall (fun c => c = recv session 4096 \/
                   exists data, data <> "" /\ c = send_range remote data 5 10)
         (calls (events_of (forward_connection_with_padding one_chunk 2
                              (connection_reader one_chunk session 4096) remote 5 10) [])).
Proof.
  split; [lia|].
  exact (proj2 (padding_clamp_in_loop one_chunk 2 session remote 4096 5 10 []) ltac:(lia)).
Defined.

(** ** One reader and one writer per endpoint *)

Lemma transfers_between_teardown src dst buffer_size cs :
  Forall (fun c => is_teardown c = true \/
                   match c with print _ | traceback_print_exc => True | _ => False end) cs ->
  Forall (transfers_between src dst buffer_size) cs.
Proof.
  apply Forall_impl. intros c [H|H]; destruct c; simpl in *; try exact I;
    try discriminate H; try contradiction.
Qed.

Lemma loop_run_transfers_between src dst buffer_size use_length_hiding padding_range new r :
  loop_run src buffer_size (write_of use_length_hiding padding_range dst) new r ->
  Forall (transfers_between src dst buffer_size) (calls new).
Proof.
  intros H. apply loop_run_calls in H. eapply Forall_impl; [|exact H].
  intros c [->|(data & _ & ->)]; simpl; [auto|].
  destruct use_length_hiding; reflexivity.
Qed.

(** X3. The inline flow reads only the near endpoint, always asking for at
    most [buffer_size] bytes, and writes only the far one; the forwarding
    thread reads only the far endpoint and writes only the near one.  So each
    endpoint has one reader and one writer. *)
Theorem one_reader_one_writer :
  forall (env_inline env_thread : Env) (config : MITMSettings.t)
         (fuel_inline fuel_thread : nat) (log_inline log_thread : list event),
    Forall (transfers_between session remote (MITMSettings.buffer_size config))
           (calls (events_of (MITMHandler.handle env_inline config fuel_inline) log_inline)) /\
    Forall (transfers_between remote session (MITMSettings.buffer_size config))
           (calls (events_of (MITMHandler.forwarding_thread_run env_thread config fuel_thread)
                             log_thread)).
Proof.
  intros env_inline env_thread config fuel_inline fuel_thread log_inline log_thread.
  split.
  - destruct (handler_forwarding_loop_run env_inline config fuel_inline log_inline)
      as (new & r & Hfw & Hrun).
    destruct (handle_calls _ _ _ _ _ _ Hfw) as (tail & Htail & Hcalls).
    rewrite calls_app, <- app_assoc in Hcalls.
    rewrite (calls_events_of _ _ _ Hcalls).
    apply Forall_app. split; [eapply loop_run_transfers_between; exact Hrun|].
    apply transfers_between_teardown. apply Forall_app. split.
    + destruct r as [[]|[e|message|message]|];
        repeat (apply Forall_cons; [left; reflexivity|]); apply Forall_nil.
    + destruct Htail as [-> | ->];
        repeat (apply Forall_cons; [left; reflexivity|]); apply Forall_nil.
  - destruct (thread_forwarding_loop_run env_thread remote session config
                fuel_thread log_thread) as (new & r & Hfw & Hrun).
    pose proof (run_cases _ _ _ _ _ _ _ _ Hfw) as Hcases.
    fold (MITMHandler.forwarding_thread_run env_thread config fuel_thread) in Hcases.
    assert (Hc : exists tail,
               calls (snd (MITMHandler.forwarding_thread_run env_thread config
                             fuel_thread log_thread))
               = calls log_thread ++ calls new ++ tail /\
               Forall (fun c => is_teardown c = true \/
                                match c with
                                | print _ | traceback_print_exc => True
                                | _ => False
                                end) tail).
    { destruct r as [[]|e|].
      - eexists. rewrite Hcases, calls_app, <- app_assoc. split; [reflexivity|].
        repeat (apply Forall_cons; [left; reflexivity|]). apply Forall_nil.
      - eexists. rewrite Hcases, calls_app, <- app_assoc. split; [reflexivity|].
        apply Forall_app. split.
        + unfold print_exc_calls. destruct (MITMSettings.suppress_exceptions config);
            repeat (apply Forall_cons; [right; exact I|]); apply Forall_nil.
        + repeat (apply Forall_cons; [left; reflexivity|]). apply Forall_nil.
      - exists []. rewrite Hcases. simpl. rewrite calls_app, app_nil_r. auto. }
    destruct Hc as (tail & Hc & Htail).
    rewrite (calls_events_of _ _ _ Hc).
    apply Forall_app. split; [eapply loop_run_transfers_between; exact Hrun|].
    apply transfers_between_teardown, Htail.
Qed.

(** ** Which flow lets an error out *)

(** How [run] ends: out of fuel, or with the outcome of the final [close]. *)
Lemma run_result env src dst config fuel log :
  exists mid,
    (ForwardingThread.forwarding env src dst config fuel log = (OutOfFuel, log ++ mid) /\
     ForwardingThread.run env src dst config fuel log = (OutOfFuel, log ++ mid)) \/
    (fst (ForwardingThread.forwarding env src dst config fuel log) <> OutOfFuel /\
     ((env_unit env (log ++ mid) (close dst) = Return tt /\
       ForwardingThread.run env src dst config fuel log
       = (Ok tt, log ++ mid ++ [Ev (close dst) (Returns VNone)])) \/
      (exists e,
          env_unit env (log ++ mid) (close dst) = Throw e /\
          ForwardingThread.run env src dst config fuel log
          = (Raise (Lib e), log ++ mid ++ [Ev (close dst) (Raises e)])))).
Proof.
  destruct (thread_forwarding_loop_run env src dst config fuel log)
    as (new & r & Hfw & _).
  assert (Hclose : forall l before,
             l = log ++ before ->
             exists o,
               (env_unit env (log ++ before ++ [Ev (shutdown dst) o]) (close dst) = Return tt /\
                ForwardingThread.close_dst env dst l
                = (Ok tt, log ++ (before ++ [Ev (shutdown dst) o])
                            ++ [Ev (close dst) (Returns VNone)])) \/
               (exists e,
                   env_unit env (log ++ before ++ [Ev (shutdown dst) o]) (close dst) = Throw e /\
                   ForwardingThread.close_dst env dst l
                   = (Raise (Lib e), log ++ (before ++ [Ev (shutdown dst) o])
                                       ++ [Ev (close dst) (Raises e)]))).
  { intros l before ->. unfold ForwardingThread.close_dst.
    destruct (shutdown_close_cases env dst (log ++ before)) as (o & [[E H]|(e & E & H)]);
      exists o; rewrite <- app_assoc in E; rewrite H, <- !app_assoc; simpl.
    - left. auto.
    - right. exists e. split; [exact E|]. rewrite <- !app_assoc. reflexivity. }
  destruct r as [[]|e|].
  - destruct (say_bye_to_dst_returns env dst (log ++ new)) as (o & Hbye).
    assert (Hrun : ForwardingThread.run env src dst config fuel log
                   = ForwardingThread.close_dst env dst ((log ++ new) ++ [Ev (bye dst) o])).
    { unfold ForwardingThread.run, bind. rewrite Hfw, Hbye. reflexivity. }
    destruct (Hclose ((log ++ new) ++ [Ev (bye dst) o]) (new ++ [Ev (bye dst) o]))
      as (o' & H); [now rewrite app_assoc|].
    exists ((new ++ [Ev (bye dst) o]) ++ [Ev (shutdown dst) o']). right.
    rewrite Hrun, Hfw. split; [simpl; discriminate|].
    destruct H as [[E H]|(e & E & H)]; rewrite H; [left | right; exists e]; auto.
  - destruct (print_exc_returns config (log ++ new)) as (printed & Hprint & _).
    assert (Hrun : ForwardingThread.run env src dst config fuel log
                   = ForwardingThread.close_dst env dst ((log ++ new) ++ printed)).
    { unfold ForwardingThread.run, bind. rewrite Hfw, Hprint. reflexivity. }
    destruct (Hclose ((log ++ new) ++ printed) (new ++ printed))
      as (o' & H); [now rewrite app_assoc|].
    exists ((new ++ printed) ++ [Ev (shutdown dst) o']). right.
    rewrite Hrun, Hfw. split; [simpl; discriminate|].
    destruct H as [[E H]|(e' & E & H)]; rewrite H; [left | right; exists e']; auto.
  - exists new. left. split; [exact Hfw|].
    unfold ForwardingThread.run, bind. rewrite Hfw. reflexivity.
Qed.

(** X4. The inline flow lets every error of its loop out: [handle] returns
    normally only when the loop ended with a clean end of stream, and raises
    whenever the loop raised.  The forwarding thread swallows every error of
    its loop: [run] raises only when the final [close] of its destination
    raises, and then with that exception; when [close] returns, [run] returns
    normally, whatever happened in the loop. *)
Theorem errors_out_of_the_flows :
  forall (env : Env) (config : MITMSettings.t) (fuel : nat) (log : list event)
         (src dst : endpoint),
    (fst (MITMHandler.handle env config fuel log) = Ok tt ->
     fst (MITMHandler.forwarding env config fuel log) = Ok tt) /\
    (forall e, fst (MITMHandler.forwarding env config fuel log) = Raise e ->
               exists e', fst (MITMHandler.handle env config fuel log) = Raise e') /\
    (forall e, fst (ForwardingThread.run env src dst config fuel log) = Raise e ->
               exists e' pre,
                 e = Lib e' /\
                 events_of (ForwardingThread.run env src dst config fuel) log
                 = pre ++ [Ev (close dst) (Raises e')]) /\
    (fst (ForwardingThread.forwarding env src dst config fuel log) <> OutOfFuel ->
     (forall h, env_unit env h (close dst) = Return tt) ->
     fst (ForwardingThread.run env src dst config fuel log) = Ok tt).
Proof.
  intros env config fuel log src dst.
  destruct (MITMHandler.forwarding env config fuel log) as [r l1] eqn:Hfw.
  pose proof (handle_cases _ _ _ _ _ _ Hfw) as Hh.
  split; [|split; [|split]].
  - simpl. intros Hok. destruct r as [[]|[e|message|message]|]; [reflexivity| | | |].
    + rewrite Hh in Hok. discriminate Hok.
    + destruct Hh as (o1 & o2 & [Hh|(e1 & _ & Hh)]); rewrite Hh in Hok; discriminate Hok.
    + destruct Hh as (o1 & o2 & [Hh|(e1 & _ & Hh)]); rewrite Hh in Hok; discriminate Hok.
    + rewrite Hh in Hok. discriminate Hok.
  - simpl. intros e ->. destruct e as [e0|message|message].
    + rewrite Hh. eexists. reflexivity.
    + destruct Hh as (o1 & o2 & [Hh|(e1 & _ & Hh)]); rewrite Hh; eexists; reflexivity.
    + destruct Hh as (o1 & o2 & [Hh|(e1 & _ & Hh)]); rewrite Hh; eexists; reflexivity.
  - intros e He.
    destruct (run_result env src dst config fuel log)
      as (mid & [[_ Hrun]|[_ [[_ Hrun]|(e' & _ & Hrun)]]]);
      rewrite Hrun in He; simpl in He; try discriminate He.
    inversion He. exists e', mid. split; [reflexivity|].
    exact (events_of_app _ _ _ _ Hrun).
  - intros Hne Hclose.
    destruct (run_result env src dst config fuel log)
      as (mid & [[Hout _]|[_ [[_ Hrun]|(e' & E & _)]]]).
    + exfalso. apply Hne. rewrite Hout. reflexivity.
    + rewrite Hrun. reflexivity.
    + rewrite Hclose in E. discriminate E.
Qed.

(** A failed read of the destination ends the loop of the forwarding thread,
    and [run] still returns. *)
Lemma errors_out_of_the_flows_witness :
  fst (ForwardingThread.forwarding far_read_fails remote session example_config 1 [])
  <> OutOfFuel /\
  (forall h, env_unit far_read_fails h (close session) = Return tt) /\
  fst (ForwardingThread.run far_read_fails remote session example_config 1 []) = Ok tt.
Proof.
  assert (H1 : fst (ForwardingThread.forwarding far_read_fails remote session
                      example_config 1 []) <> OutOfFuel) by (vm_compute; discriminate).
  assert (H2 : forall h, env_unit far_read_fails h (close session) = Return tt)
    by (intros h; reflexivity).
  split; [exact H1|]. split; [exact H2|].
  destruct (errors_out_of_the_flows far_read_fails example_config 1 [] remote session)
    as (_ & _ & _ & H).
  exact (H H1 H2).
Defined.

(** ** Establishment, step by step *)

Ltac not_in_calls :=
  let H := fresh "H" in
  simpl; intros H; repeat (destruct H as [H|H]; [discriminate H|]); exact H.

Ltac more_list_facts :=
  repeat match goal with
         | |- _ /\ _ => split
         | |- exists pre, ?l = pre ++ [_] /\ _ =>
             exists (removelast l); simpl removelast
         | |- Forall _ (_ :: _) => apply Forall_cons
         | |- Forall _ [] => apply Forall_nil
         | |- Forall _ (calls _) => unfold calls; simpl map
         | |- false = true -> _ => discriminate
         | |- true = true -> _ => intros _
         | |- _ = Ok tt -> _ => first [discriminate | intros _]
         | |- In _ _ => simpl; tauto
         | |- ~ In _ _ => not_in_calls
         | |- _ => reflexivity || exact I
         end.

Lemma near_steps_calls env config log :
  exists r new,
    near_steps env config log = (r, log ++ new) /\
    Forall (fun c => on_near c = true) (calls new) /\
    Forall (setup_may_call config) (calls new) /\
    (r = Ok tt -> Forall (fun ev => returned ev = true) new).
Proof.
  unfold near_steps, setup_may_call, MITMHandler.handshake_with_client,
    MITMHandler.verify_client_identity, bind, call_unit, call_bool, raise, ret.
  destruct (MITMSettings.verify_client_identity config),
           (MITMSettings.use_length_hiding_with_client config);
    answer_calls; concrete_log; rewrite ?app_nil_r; more_list_facts.
Qed.

Lemma far_steps_ready env config log :
  exists r new,
    far_steps env config log = (r, log ++ new) /\
    Forall (setup_may_call config) (calls new) /\
    match r with
    | Ok _ =>
        exists pre,
          new = pre ++ [Ev forwarding_thread_start (Returns VNone)] /\
          far_completed config pre /\
          Forall (fun ev => returned ev = true) pre /\
          ~ In forwarding_thread_start (calls pre)
    | Raise _ => ~ In forwarding_thread_start (calls new)
    | OutOfFuel => False
    end.
Proof.
  unfold far_steps, far_completed, setup_may_call, dialed, family_of, uses_proxy,
    MITMHandler.build_server_connection,
    MITMHandler.verify_server_identity, MITMHandler.start_forwarding_thread,
    bind, call_unit, call_bool, emit, raise, ret.
  destruct (is_ipv6_address (MITMSettings.server_address config)),
           (MITMSettings.proxy config) as [descriptor|],
           (MITMSettings.verify_server_identity config),
           (MITMSettings.use_length_hiding_with_server config);
    answer_calls; concrete_log; rewrite ?app_nil_r; more_list_facts.
Qed.

Lemma last_occurrence (l pre post : list event) (x y : event) :
  ~ In (ev_call y) (calls l) ->
  l ++ [x] = pre ++ y :: post ->
  pre = l /\ post = [] /\ y = x.
Proof.
  revert pre. induction l as [|a l IH]; intros pre Hnot E.
  - destruct pre as [|b pre]; simpl in E.
    + inversion E. auto.
    + inversion E as [[Hb Hrest]]. destruct pre; discriminate Hrest.
  - destruct pre as [|b pre]; simpl in E.
    + inversion E as [[Ha Hrest]]. exfalso. apply Hnot. subst a. left. reflexivity.
    + inversion E as [[Ha Hrest]].
      destruct (IH pre) as (-> & -> & ->); auto.
      intros Hin. apply Hnot. right. exact Hin.
Qed.

(** The whole of [setup]: the near steps, then the far steps. *)
Lemma setup_ready_cases env config log :
  exists r evs,
    MITMHandler.setup env config log = (r, log ++ evs) /\
    Forall (setup_may_call config) (calls evs) /\
    match r with
    | Ok _ =>
        exists pre,
          evs = pre ++ [Ev forwarding_thread_start (Returns VNone)] /\
          near_completed config pre /\
          far_completed config pre /\
          Forall (fun ev => returned ev = true) pre /\
          ~ In forwarding_thread_start (calls pre)
    | Raise _ => ~ In forwarding_thread_start (calls evs)
    | OutOfFuel => False
    end.
Proof.
  rewrite setup_split. unfold bind.
  destruct (near_steps_cases env config log) as (r1 & near & Hnear & _ & _ & Hr1).
  destruct (near_steps_calls env config log) as (r1' & near' & Hnear' & Hon & Hmay & Hret).
  rewrite Hnear in Hnear'. inversion Hnear' as [[Hr E]]. apply app_inv_head in E.
  subst r1' near'. clear Hnear'. rewrite Hnear.
  assert (Hnot : ~ In forwarding_thread_start (calls near)).
  { intros Hin. rewrite Forall_forall in Hon. specialize (Hon _ Hin). discriminate Hon. }
  destruct r1 as [[]|e|]; [|exists (Raise e), near; auto|contradiction].
  destruct (far_steps_ready env config (log ++ near)) as (r & far & Hfar & Hmay' & Hr).
  destruct (far_steps_cases env config (log ++ near)) as (r' & far' & Hfar' & Hnf & _).
  rewrite Hfar in Hfar'. inversion Hfar' as [[Hr' E]]. apply app_inv_head in E.
  subst r' far'. clear Hfar'. rewrite Hfar.
  exists r, (near ++ far). rewrite <- app_assoc. split; [reflexivity|].
  split; [rewrite calls_app; apply Forall_app; auto|].
  destruct r as [[]|e|]; [| |contradiction].
  - destruct Hr as (pre & -> & (Hc & Hh & Hv & Hl) & Hret' & Hnot').
    destruct Hr1 as (Hh1 & Hv1 & Hl1 & Hok1).
    apply Forall_app in Hnf. destruct Hnf as [Hnf _].
    exists (near ++ pre). rewrite <- app_assoc. split; [reflexivity|].
    split; [|split; [|split]].
    + split; [apply in_or_app; auto|].
      split; [intros Hf; destruct (Hv1 Hf); split; apply in_or_app; auto|].
      split; [intros Hf; apply in_or_app; auto|].
      apply Forall_app. auto.
    + split; [apply in_or_app; auto|].
      split; [apply in_or_app; auto|].
      split; [intros Hf; destruct (Hv Hf); split; apply in_or_app; auto|].
      intros Hf; apply in_or_app; auto.
    + apply Forall_app. auto.
    + rewrite calls_app. intros Hin. apply in_app_or in Hin. tauto.
  - rewrite calls_app. intros Hin. apply in_app_or in Hin. tauto.
Qed.

(** X5. The forwarding thread is started exactly when [setup] returns
    normally, as its last step: every call before it has returned, the near
    endpoint is through its handshake and its configured checks, and the far
    endpoint is connected and through its handshake and its configured
    checks.  No flow starts on a connection that is not fully established. *)
Theorem forwarding_starts_when_ready :
  forall (env : Env) (config : MITMSettings.t) (log : list event),
    let evs := events_of (MITMHandler.setup env config) log in
    (fst (MITMHandler.setup env config log) = Ok tt <->
     In forwarding_thread_start (calls evs)) /\
    (forall pre o post,
        evs = pre ++ Ev forwarding_thread_start o :: post ->
        post = [] /\
        Forall (fun ev => returned ev = true) pre /\
        near_completed config pre /\
        far_completed config pre).
Proof.
  intros env config log evs.
  destruct (setup_ready_cases env config log) as (r & evs' & Hsetup & _ & Hr).
  assert (Hevs : evs = evs') by (apply (events_of_app _ _ _ _ Hsetup)).
  rewrite Hevs, Hsetup. simpl fst. clear Hevs evs.
  destruct r as [[]|e|]; [| |contradiction].
  - destruct Hr as (pre & -> & Hnear & Hfar & Hret & Hnot). split.
    + split; [intros _|reflexivity].
      rewrite calls_app. apply in_or_app. right. left. reflexivity.
    + intros pre' o post E.
      destruct (last_occurrence pre pre' post _ (Ev forwarding_thread_start o) Hnot E)
        as (-> & -> & _).
      auto.
  - split.
    + split; [discriminate | intros Hin; contradiction].
    + intros pre o post E. exfalso. apply Hr. rewrite E, calls_app.
      apply in_or_app. right. left. reflexivity.
Qed.

(** A run in which everything succeeds. *)
Lemma forwarding_starts_when_ready_witness :
  In forwarding_thread_start
     (calls (events_of (MITMHandler.setup quiet example_config) [])) /\
  fst (MITMHandler.setup quiet example_config []) = Ok tt.
Proof.
  assert (H : In forwarding_thread_start
                 (calls (events_of (MITMHandler.setup quiet example_config) [])))
    by (vm_compute; tauto).
  split; [exact H|].
  exact (proj2 (proj1 (forwarding_starts_when_ready quiet example_config [])) H).
Defined.

(** X6. [setup] issues only the calls its configuration asks for: a peer is
    verified only when the flag for its side is set, a length-hiding check is
    made only when the flag for its side is set, [set_proxy] is called only
    with the configured proxy, the session to the destination gets the
    configured server name, and the socket and the connection follow the
    configured destination address.  It never reads or writes application
    data and never shuts down or closes an endpoint. *)
Theorem setup_calls_by_configuration :
  forall (env : Env) (config : MITMSettings.t) (log : list event),
    Forall (setup_may_call config)
           (calls (events_of (MITMHandler.setup env config) log)).
Proof.
  intros env config log.
  destruct (setup_ready_cases env config log) as (r & evs & Hsetup & Hmay & _).
  rewrite (events_of_app _ _ _ _ Hsetup). exact Hmay.
Qed.

(** ** Dialing through a proxy *)

(** X7. With a SOCKS proxy configured, [build_server_connection] creates the
    session to the destination, connects it and starts its handshake only
    after the socket was built as a proxy socket and [set_proxy] has returned
    on it: no connection is attempted around the proxy. *)
Theorem proxy_set_before_dialing :
  forall (env : Env) (config : MITMSettings.t) (descriptor : list string)
         (log pre post : list event) (c : call) (o : outcome),
    MITMSettings.proxy config = Some descriptor ->
    events_of (MITMHandler.build_server_connection env config) log
    = pre ++ Ev c o :: post ->
    uses_far_socket c = true ->
    In (Ev (socket_builder true (family_of (MITMSettings.server_address config)))
           (Returns VNone)) pre /\
    In (Ev (set_proxy descriptor) (Returns VNone)) pre.
Proof.
  intros env config descriptor log pre post c o Hproxy E Hc.
  assert (H : exists r evs,
             MITMHandler.build_server_connection env config log = (r, log ++ evs) /\
             forall pre post c o,
               evs = pre ++ Ev c o :: post ->
               uses_far_socket c = true ->
               In (Ev (socket_builder true (family_of (MITMSettings.server_address config)))
                      (Returns VNone)) pre /\
               In (Ev (set_proxy descriptor) (Returns VNone)) pre).
  { unfold MITMHandler.build_server_connection, family_of, bind, call_unit, ret.
    rewrite Hproxy.
    destruct (is_ipv6_address (MITMSettings.server_address config));
      answer_calls; concrete_log; rewrite ?app_nil_r;
      intros pre0 post0 c0 o0 E0 Hc0;
      enumerate_prefixes E0 pre0;
      first [discriminate Hc0 | split; simpl; tauto]. }
  destruct H as (r & evs & Hb & Hall).
  rewrite (events_of_app _ _ _ _ Hb) in E.
  exact (Hall _ _ _ _ E Hc).
Qed.

(** Dialing through the proxy of the example. *)
Lemma proxy_set_before_dialing_witness :
  In (Ev (set_proxy ["SOCKS5"; "127.0.0.1"; "9050"]) (Returns VNone))
     [Ev (socket_builder true AF_INET) (Returns VNone);
      Ev (set_proxy ["SOCKS5"; "127.0.0.1"; "9050"]) (Returns VNone);
      Ev (LengthHidingClientSession "example.org") (Returns VNone)].
Proof.
  exact (proj2 (proxy_set_before_dialing quiet through_proxy
                  ["SOCKS5"; "127.0.0.1"; "9050"] []
                  [Ev (socket_builder true AF_INET) (Returns VNone);
                   Ev (set_proxy ["SOCKS5"; "127.0.0.1"; "9050"]) (Returns VNone);
                   Ev (LengthHidingClientSession "example.org") (Returns VNone)]
                  [Ev (handshake remote) (Returns VNone)]
                  (connect remote ("example.org", [443])) (Returns VNone)
                  eq_refl eq_refl eq_refl)).
Defined.

(** ** The interrupt *)

Lemma sigint_received_asked server_shutdown : forall servers asked0,
  exists now later,
    snd (sigint_received server_shutdown servers asked0) = asked0 ++ now /\
    map fst servers = now ++ later /\
    match fst (sigint_received server_shutdown servers asked0) with
    | SystemExit status => status = 0 /\ later = []
    | interrupted_by e =>
        exists before key,
          now = before ++ [key] /\
          server_shutdown (asked0 ++ before) key = Throw e
    end /\
    ((forall h key, server_shutdown h key = Return tt) ->
     fst (sigint_received server_shutdown servers asked0) = SystemExit 0).
Proof.
  induction servers as [|[key server] servers IH]; intros asked0; simpl.
  - exists [], []. rewrite app_nil_r. auto.
  - destruct (server_shutdown asked0 key) as [[]|e] eqn:E.
    + destruct (IH (asked0 ++ [key])) as (now & later & Hs & Hm & Hend & Hall).
      exists (key :: now), later. rewrite Hs, <- app_assoc. simpl.
      split; [reflexivity|]. split; [now rewrite Hm|]. split; [|exact Hall].
      destruct (fst (sigint_received server_shutdown servers (asked0 ++ [key]))).
      * exact Hend.
      * destruct Hend as (before & k & -> & Hk). exists (key :: before), k.
        rewrite <- app_assoc in Hk. auto.
    + exists [key], (map fst servers). simpl.
      split; [reflexivity|]. split; [reflexivity|]. split.
      * exists [], key. rewrite app_nil_r. auto.
      * intros Hall. rewrite Hall in E. discriminate E.
Qed.

(** X8. On the interrupt the started servers are asked to shut down in the
    order in which they were started, each at most once, up to the first one
    whose [shutdown] raises; the servers after that one are not asked.  When
    every [shutdown] returns, all of them are asked, exactly the relays whose
    serving threads the startup has started, and the handler ends with
    [sys.exit(0)].  The process ends with status 0 either way. *)
Theorem interrupt_shuts_down_started :
  forall (V : Type) (server_shutdown : list string -> string -> lib_result unit)
         (env : Env) (attributes_of : @dict V -> MITMSettings.t)
         (default_settings : @dict V) (settings : list (string * @dict V))
         (log : list event) (servers : list (string * MITMServer.t)) (l : list event),
    main env attributes_of default_settings settings log = (Ok (serving servers), l) ->
    let outcome := sigint_received server_shutdown servers [] in
    (exists later, map fst servers = snd outcome ++ later) /\
    (forall e, fst outcome = interrupted_by e ->
               exists before key,
                 snd outcome = before ++ [key] /\ server_shutdown before key = Throw e) /\
    ((forall h key, server_shutdown h key = Return tt) ->
     fst outcome = SystemExit 0 /\
     snd outcome
     = started_keys
         (calls (events_of (main env attributes_of default_settings settings) log))) /\
    sleep_until_interrupt server_shutdown servers = (0, snd outcome).
Proof.
  intros V server_shutdown env attributes_of default_settings settings log servers l
         Hmain outcome.
  destruct (sigint_received_asked server_shutdown servers [])
    as (now & later & Hs & Hm & Hend & Hall).
  fold outcome in Hs, Hend, Hall. simpl in Hs.
  split; [exists later; now rewrite Hs|].
  split; [|split].
  - intros e He. rewrite He in Hend. rewrite Hs. exact Hend.
  - intros Hret. specialize (Hall Hret). split; [exact Hall|].
    rewrite Hall in Hend. destruct Hend as [_ ->]. rewrite app_nil_r in Hm.
    rewrite Hs, <- Hm.
    pose proof Hmain as Hev. unfold main, bind in Hmain.
    destruct (start_servers env attributes_of default_settings settings [] log)
      as [[all|e|] l0] eqn:H; try discriminate Hmain.
    destruct all as [|server all]; [discriminate Hmain|].
    unfold ret in Hmain. inversion Hmain; subst.
    destruct (start_servers_keys _ _ _ _ _ _ _ _ H) as (built & new & Hb & -> & Hk).
    simpl in Hb. subst built.
    rewrite (events_of_app _ _ _ _ Hev). symmetry. exact Hk.
  - unfold sleep_until_interrupt. fold outcome. destruct outcome. reflexivity.
Qed.

(** Relays [a] and [c] are running; both shut down when asked. *)
Lemma interrupt_shuts_down_started_witness :
  snd (sigint_received (fun _ _ => Return tt)
         [("a", server_of (listening_on "127.0.0.1"));
          ("c", server_of (listening_on "[::1]"))] [])
  = ["a"; "c"].
Proof.
  destruct (interrupt_shuts_down_started _ (fun _ _ => Return tt)
              bad_address_fails example_attributes [] three_relays []
              [("a", server_of (listening_on "127.0.0.1"));
               ("c", server_of (listening_on "[::1]"))]
              (snd (main bad_address_fails example_attributes [] three_relays []))
              eq_refl) as (_ & _ & H & _).
  exact (proj2 (H (fun _ _ => eq_refl))).
Defined.

(** ** The configuration of a relay *)

Section DictionaryFacts.
Context {V : Type}.

Lemma lookup_setitem (d : @dict V) k v k' :
  lookup (setitem d k v) k' = if String.eqb k k' then Some v else lookup d k'.
Proof.
  induction d as [|[k0 v0] d IH]; simpl.
  - reflexivity.
  - destruct (String.eqb_spec k0 k) as [->|Hne]; simpl.
    + destruct (String.eqb k k'); reflexivity.
    + rewrite IH. destruct (String.eqb_spec k0 k') as [->|Hne'].
      * destruct (String.eqb_spec k k'); [congruence | reflexivity].
      * reflexivity.
Qed.

Lemma lookup_absent (d : @dict V) k : ~ In k (map fst d) -> lookup d k = None.
Proof.
  induction d as [|[k0 v0] d IH]; simpl; intros H; [reflexivity|].
  destruct (String.eqb_spec k0 k) as [->|Hne]; [tauto | apply IH; tauto].
Qed.

Lemma lookup_update (d new : @dict V) k :
  NoDup (map fst new) ->
  lookup (update d new) k
  = match lookup new k with
    | Some v => Some v
    | None => lookup d k
    end.
Proof.
  unfold update. revert d. induction new as [|[k0 v0] new IH]; intros d Hnd; simpl.
  - reflexivity.
  - inversion Hnd as [|? ? Hnotin Hnd']; subst.
    rewrite (IH _ Hnd'), lookup_setitem.
    destruct (String.eqb_spec k0 k) as [->|Hne]; [|reflexivity].
    rewrite (lookup_absent new k Hnotin). reflexivity.
Qed.

Lemma setitem_keys (d : @dict V) k v :
  NoDup (map fst d) ->
  NoDup (map fst (setitem d k v)) /\
  (forall k', In k' (map fst (setitem d k v)) <-> k' = k \/ In k' (map fst d)).
Proof.
  induction d as [|[k0 v0] d IH]; simpl; intros Hnd.
  - split; [repeat constructor; auto | intros k'; intuition].
  - inversion Hnd as [|? ? Hnotin Hnd']; subst.
    destruct (String.eqb_spec k0 k) as [->|Hne]; simpl.
    + split; [exact Hnd | intros k'; intuition].
    + destruct (IH Hnd') as [Hnd'' Hkeys]. split.
      * constructor; [|exact Hnd'']. rewrite Hkeys. intros [E|Hin]; [congruence | tauto].
      * intros k'. rewrite Hkeys. intuition.
Qed.

Lemma update_keys (d new : @dict V) :
  NoDup (map fst d) -> NoDup (map fst (update d new)).
Proof.
  unfold update. revert d. induction new as [|[k0 v0] new IH]; intros d Hnd; simpl.
  - exact Hnd.
  - apply IH. apply setitem_keys, Hnd.
Qed.

(** X9. The configuration of a relay takes every attribute from the relay's
    own setting when the setting has it and from the defaults otherwise, and
    has no attribute that neither has; its keys stay unique.  A setting
    without [server_address], or else without [listen_address], raises
    [KeyError] for that key, whatever the defaults hold. *)
Theorem relay_setting_overrides_defaults :
  forall (default_settings setting : @dict V),
    NoDup (map fst setting) ->
    NoDup (map fst default_settings) ->
    (forall config,
        make_config default_settings setting = Ok config ->
        NoDup (map fst config) /\
        forall k,
          lookup config k
          = match lookup setting k with
            | Some v => Some v
            | None => lookup default_settings k
            end) /\
    (lookup setting "server_address" = None ->
     make_config default_settings setting
     = Raise (Lib (PyException "KeyError" "server_address"))) /\
    (lookup setting "server_address" <> None ->
     lookup setting "listen_address" = None ->
     make_config default_settings setting
     = Raise (Lib (PyException "KeyError" "listen_address"))) /\
    (lookup setting "server_address" <> None ->
     lookup setting "listen_address" <> None ->
     exists config, make_config default_settings setting = Ok config).
Proof.
  intros default_settings setting Hs Hd.
  unfold make_config, and_then, getitem.
  destruct (lookup setting "server_address") as [sa|] eqn:Esa;
    destruct (lookup setting "listen_address") as [la|] eqn:Ela.
  all: split; [|split; [|split]]; try congruence; try (intros; discriminate); eauto.
  intros config E. inversion E; subst config. clear E. split.
  - apply update_keys, update_keys. unfold MITMSettings_init. simpl.
    repeat constructor; simpl; intuition discriminate.
  - intros k. rewrite (lookup_update _ setting k Hs), (lookup_update _ default_settings k Hd).
    destruct (lookup setting k) as [v|] eqn:Ek; [reflexivity|].
    destruct (lookup default_settings k) as [v|]; [reflexivity|].
    unfold MITMSettings_init. cbn [lookup].
    destruct (String.eqb_spec "server_address" k) as [<-|_]; [congruence|].
    destruct (String.eqb_spec "listen_address" k) as [<-|_]; [congruence|].
    reflexivity.
Qed.
End DictionaryFacts.

(** A setting that overrides the buffer size of the defaults. *)
Lemma relay_setting_overrides_defaults_witness :
  lookup (update (update (MITMSettings_init "example.org" "127.0.0.1")
                    [("buffer_size", "4096"); ("suppress_exceptions", "False")])
            [("server_address", "example.org"); ("listen_address", "127.0.0.1");
             ("buffer_size", "1024")])
         "buffer_size"
  = Some "1024".
Proof.
  assert (Hs : NoDup (map fst [("server_address", "example.org");
                               ("listen_address", "127.0.0.1");
                               ("buffer_size", "1024")]))
    by (repeat constructor; simpl; intuition discriminate).
  assert (Hd : NoDup (map fst [("buffer_size", "4096"); ("suppress_exceptions", "False")]))
    by (repeat constructor; simpl; intuition discriminate).
  destruct (relay_setting_overrides_defaults _ _ Hs Hd) as (H & _).
  exact (proj2 (H _ eq_refl) "buffer_size").
Defined.

(** ** Hosts at the edges *)

(** X10. Dialing never changes the rest of an address, only its host.  A
    host of fewer than two characters, the empty host among them, is never
    taken for IPv6 and is dialed as it is.  For a host taken for IPv6, putting
    the brackets back around the dialed host gives the configured host: the
    dialed host is exactly two characters shorter. *)
Theorem dialed_host_edges :
  forall a : address,
    snd (dialed a) = snd a /\
    ((String.length (fst a) < 2)%nat -> is_ipv6_address a = false /\ dialed a = a) /\
    (is_ipv6_address a = true ->
     fst a = String "[" (append (fst (dialed a)) "]") /\
     (String.length (fst (dialed a)) + 2 = String.length (fst a))%nat).
Proof.
  intros a.
  assert (Hb : is_ipv6_address a = true ->
               exists body, fst a = String "[" (append body "]") /\ fst (dialed a) = body).
  { intros E. pose proof E as E'. apply is_ipv6_address_brackets in E'.
    destruct E' as (body & Hbody). exists body. split; [exact Hbody|].
    unfold dialed. rewrite E. simpl fst. rewrite Hbody. apply slice_1_m1_brackets. }
  split; [unfold dialed; destruct (is_ipv6_address a); reflexivity|]. split.
  - intros Hlen. destruct (is_ipv6_address a) eqn:E.
    + exfalso. destruct (Hb eq_refl) as (body & Hbody & _).
      rewrite Hbody in Hlen. simpl in Hlen. rewrite length_append_one in Hlen. lia.
    + split; [reflexivity|]. unfold dialed. rewrite E. reflexivity.
  - intros E. destruct (Hb E) as (body & Hbody & ->).
    split; [exact Hbody|]. rewrite Hbody. simpl. rewrite length_append_one. lia.
Qed.

(** The empty host, and the host of the IPv6 loopback. *)
Lemma dialed_host_edges_witness :
  (is_ipv6_address ("", [443]) = false /\ dialed ("", [443]) = ("", [443])) /\
  (String.length (fst (dialed ("[::1]", [443%Z]))) + 2 = String.length "[::1]")%nat.
Proof.
  split.
  - exact (proj1 (proj2 (dialed_host_edges ("", [443]))) ltac:(simpl; lia)).
  - exact (proj2 (proj2 (proj2 (dialed_host_edges ("[::1]", [443]))) eq_refl)).
Defined.

(** ** Building a listener *)

(** X11. [MITMServer.__init__] binds the listen address only after both TLS
    contexts were built, and as its last call.  It returns the listener of
    the configuration exactly when all three calls returned; otherwise it
    raises the exception of the call that failed, as the library raised it,
    and issues no call after that one. *)
Theorem listener_binds_after_contexts :
  forall (env : Env) (config : MITMSettings.t) (log : list event),
    let evs := events_of (MITMServer.init env config) log in
    (forall pre a family o post,
        evs = pre ++ Ev (ThreadingTCPServer_init a family) o :: post ->
        post = [] /\
        pre = [Ev (TLSContext as_server) (Returns VNone);
               Ev (TLSContext as_client) (Returns VNone)]) /\
    (forall server, fst (MITMServer.init env config log) = Ok server ->
        server = server_of config /\
        evs = [Ev (TLSContext as_server) (Returns VNone);
               Ev (TLSContext as_client) (Returns VNone);
               Ev (ThreadingTCPServer_init (MITMSettings.listen_address config)
                     (family_of (MITMSettings.listen_address config))) (Returns VNone)]) /\
    (forall e, fst (MITMServer.init env config log) = Raise e ->
        exists e' pre c,
          e = Lib e' /\ evs = pre ++ [Ev c (Raises e')] /\
          Forall (fun ev => returned ev = true) pre).
Proof.
  intros env config log evs.
  assert (H : exists r new,
             MITMServer.init env config log = (r, log ++ new) /\
             (forall pre a family o post,
                 new = pre ++ Ev (ThreadingTCPServer_init a family) o :: post ->
                 post = [] /\
                 pre = [Ev (TLSContext as_server) (Returns VNone);
                        Ev (TLSContext as_client) (Returns VNone)]) /\
             (forall server, r = Ok server ->
                 server = server_of config /\
                 new = [Ev (TLSContext as_server) (Returns VNone);
                        Ev (TLSContext as_client) (Returns VNone);
                        Ev (ThreadingTCPServer_init (MITMSettings.listen_address config)
                              (family_of (MITMSettings.listen_address config)))
                           (Returns VNone)]) /\
             (forall e, r = Raise e ->
                 exists e' pre c,
                   e = Lib e' /\ new = pre ++ [Ev c (Raises e')] /\
                   Forall (fun ev => returned ev = true) pre)).
  { unfold MITMServer.init, server_of, family_of, bind, call_unit, ret.
    answer_calls; concrete_log; rewrite ?app_nil_r;
      (split;
       [ intros pre0 a0 family0 o0 post0 E0; enumerate_prefixes E0 pre0;
         split; reflexivity
       | split;
         [ intros server Hs; inversion Hs; split; reflexivity
         | intros e0 He; inversion He; subst;
           match goal with
           | |- exists e' pre c, _ /\ ?l = _ /\ _ =>
               eexists _, (removelast l), _; simpl removelast;
               split; [reflexivity|]; split; [reflexivity|];
               repeat (apply Forall_cons; [reflexivity|]); apply Forall_nil
           end ] ]). }
  destruct H as (r & new & Hinit & Hbind & Hok & Hraise).
  unfold evs. rewrite (events_of_app _ _ _ _ Hinit), Hinit. simpl fst.
  split; [exact Hbind|]. split; [exact Hok | exact Hraise].
Qed.

(** The listener that cannot bind its address. *)
Lemma listener_binds_after_contexts_witness :
  exists e' pre c,
    Lib (PyException "socket.gaierror" "Name or service not known") = Lib e' /\
    events_of (MITMServer.init bad_address_fails (listening_on "256.0.0.1")) []
    = pre ++ [Ev c (Raises e')] /\
    Forall (fun ev => returned ev = true) pre.
Proof.
  exact (proj2 (proj2 (listener_binds_after_contexts bad_address_fails
                         (listening_on "256.0.0.1") []))
               (Lib (PyException "socket.gaierror" "Name or service not known")) eq_refl).
Defined.
